(** * Peakpower: peak capacity notification buzzer

    A shallow embedding of [peakpower.py]: the [PeakBuzzer] thread, the three
    InfluxDB readers, [sleep], the start-up statements and the main loop,
    followed by the properties of the estimation-and-alarm control loop.

    Numbers.  Python's [int] is [Z].  Python's [float] is embedded as an exact
    rational ([Q]), so [+], [*] and [/] carry no rounding; a division whose
    divisor is not a literal returns [None] where Python raises
    [ZeroDivisionError].  The module [Binary64] at the end of the definitions
    repeats the numeric part of the loop body over IEEE 754 binary64
    ([PrimFloat]), the arithmetic CPython really performs: the bands of the
    alarm level are proved there, the concrete data points are replayed
    there, and where rounding makes the two differ the difference is shown
    there.

    Exceptions.  Nothing in the program catches an exception, so a raising
    call ends the process; it is embedded as [None]. *)

From Stdlib Require Import ZArith QArith Qminmax Qround Lqa Lia List Bool.
From Stdlib Require PrimFloat Uint63 SpecFloat FloatOps FloatAxioms String.
Import ListNotations.

Local Open Scope Z_scope.

(** ** Python arithmetic on exact numbers *)

Declare Scope py_scope.
Delimit Scope py_scope with py.

Notation "x <- e ;; k" :=
  (match e with Some x => k | None => None end)
  (at level 61, e at next level, right associativity) : py_scope.

(** [a < b] on floats. *)
Definition lt (a b : Q) : bool := negb (Qle_bool b a).

(** [a / b]: [ZeroDivisionError] when [b] is zero. *)
Definition truediv (a b : Q) : option Q :=
  if Qeq_bool b 0 then None else Some (a / b)%Q.

(** [max(x, y1, ..., yn)]: the running maximum is replaced only by a
    strictly greater item, so the first of several equal items is kept. *)
Definition py_max (x : Q) (ys : list Q) : Q :=
  fold_left (fun m y => if lt m y then y else m) ys x.

(** [max(iterable)]: [ValueError] on an empty iterable. *)
Definition max_of (xs : list Q) : option Q :=
  match xs with
  | [] => None
  | x :: ys => Some (py_max x ys)
  end.

(** [xs[-1]]: [IndexError] on an empty list. *)
Fixpoint last_item {A : Type} (xs : list A) : option A :=
  match xs with
  | [] => None
  | [x] => Some x
  | _ :: ys => last_item ys
  end.

(** [range(n)] as the number of iterations of a [for] loop over it. *)
Definition range (n : Z) : nat := Z.to_nat n.

(** ** class PeakBuzzer(Thread) *)

Module PeakBuzzer.

(** [class Alarm(Enum)] *)
Inductive Alarm : Set := IDLE | TEST | LEVEL_1 | LEVEL_2 | LEVEL_3.

Definition value (a : Alarm) : Z :=
  match a with
  | IDLE => 0
  | TEST => 99
  | LEVEL_1 => 1
  | LEVEL_2 => 2
  | LEVEL_3 => 3
  end.

Definition Alarm_eqb (a b : Alarm) : bool := value a =? value b.

(** What the thread does to the outside world: [self.buzzer.on()],
    [self.buzzer.off()], [time.sleep(d)] with [d] in seconds, and the
    module-level [sleep()] that waits for the next full second. *)
Inductive Signal : Type :=
| On
| Off
| Hold (seconds : Q)
| Tick.

(** [set_alarm(level)]: apart from logging, [self.state = level]. *)
Definition set_alarm (level : Alarm) (state : Alarm) : Alarm := level.

(** [for i in range(n): on(); time.sleep(d); off(); time.sleep(d)] *)
Fixpoint pulses (n : nat) (d : Q) : list Signal :=
  match n with
  | O => []
  | S k => On :: Hold d :: Off :: Hold d :: pulses k d
  end.

(** One pass through the body of [while True] in [run], on its own: no
    other thread touches [self.state] during the pass. *)
Definition run_body (state : Alarm) : list Signal * Alarm :=
  if Alarm_eqb state IDLE then
    ([Tick], state)
  else if Alarm_eqb state TEST then
    (pulses 3 0.1, set_alarm IDLE state)
  else
    (pulses (range (value state)) 0.5, set_alarm IDLE state).

(** [run], cut after [fuel] passes. *)
Fixpoint run (fuel : nat) (state : Alarm) : list Signal * Alarm :=
  match fuel with
  | O => ([], state)
  | S k =>
      let '(out, state') := run_body state in
      let '(rest, final) := run k state' in
      (out ++ rest, final)
  end.

(** *** The thread next to the main thread

    [self.state] is read at three places of [run] (lines 80, 84 and 96) and
    written at two (92 and 102); the main thread writes it through
    [set_alarm] whenever it likes.  Reading or writing the attribute is one
    indivisible step, so an execution is an interleaving of the steps below
    with writes of the main thread. *)

(** Where in one pulse the thread stands. *)
Inductive Phase : Set := SwitchOn | HoldOn | SwitchOff | HoldOff.

(** Program points of [run]. *)
Inductive Point : Type :=
| AtIdleCheck                                  (* line 80 *)
| AtTestCheck                                  (* line 84 *)
| AtLevelRange                                 (* line 96, before [range] *)
| InPattern (d : Q) (left : nat) (ph : Phase)  (* inside either [for] *)
| AtReset.                                     (* lines 92 and 102 *)

Record Config : Type := { point : Point; state : Alarm }.

(** One step of the thread, with the signal it gives, if any. *)
Definition thread_step (c : Config) : Config * list Signal :=
  let s := state c in
  match point c with
  | AtIdleCheck =>
      if Alarm_eqb s IDLE
      then ({| point := AtIdleCheck; state := s |}, [Tick])
      else ({| point := AtTestCheck; state := s |}, [])
  | AtTestCheck =>
      if Alarm_eqb s TEST
      then ({| point := InPattern 0.1 (range 3) SwitchOn; state := s |}, [])
      else ({| point := AtLevelRange; state := s |}, [])
  | AtLevelRange =>
      ({| point := InPattern 0.5 (range (value s)) SwitchOn; state := s |}, [])
  | InPattern d O _ =>
      ({| point := AtReset; state := s |}, [])
  | InPattern d (S k) SwitchOn =>
      ({| point := InPattern d (S k) HoldOn; state := s |}, [On])
  | InPattern d (S k) HoldOn =>
      ({| point := InPattern d (S k) SwitchOff; state := s |}, [Hold d])
  | InPattern d (S k) SwitchOff =>
      ({| point := InPattern d (S k) HoldOff; state := s |}, [Off])
  | InPattern d (S k) HoldOff =>
      ({| point := InPattern d k SwitchOn; state := s |}, [Hold d])
  | AtReset =>
      ({| point := AtIdleCheck; state := set_alarm IDLE s |}, [])
  end.

(** A move of an execution: a step of the buzzer thread, or a call of
    [buzzer.set_alarm(level)] by the main thread. *)
Inductive Move : Set :=
| Thread
| Main (level : Alarm).

Definition move (m : Move) (c : Config) : Config * list Signal :=
  match m with
  | Thread => thread_step c
  | Main level => ({| point := point c; state := set_alarm level (state c) |}, [])
  end.

(** The execution a schedule of moves gives, with the signals in order. *)
Fixpoint exec (schedule : list Move) (c : Config) : Config * list Signal :=
  match schedule with
  | [] => (c, [])
  | m :: rest =>
      let '(c', out) := move m c in
      let '(final, out') := exec rest c' in
      (final, out ++ out')
  end.

(** Number of steps the thread takes in a schedule. *)
Fixpoint thread_moves (schedule : list Move) : nat :=
  match schedule with
  | [] => O
  | Thread :: rest => S (thread_moves rest)
  | Main _ :: rest => thread_moves rest
  end.

(** Steps from a point inside a pattern to [AtReset]. *)
Definition steps_left (left : nat) (ph : Phase) : nat :=
  match left with
  | O => 1
  | S k =>
      match ph with
      | SwitchOn => 4 * S k + 1
      | HoldOn => 4 * k + 4
      | SwitchOff => 4 * k + 3
      | HoldOff => 4 * k + 2
      end
  end%nat.

(** Signals still to come from a point inside a pattern. *)
Definition signals_left (d : Q) (left : nat) (ph : Phase) : list Signal :=
  match left with
  | O => []
  | S k =>
      match ph with
      | SwitchOn => pulses (S k) d
      | HoldOn => Hold d :: Off :: Hold d :: pulses k d
      | SwitchOff => Off :: Hold d :: pulses k d
      | HoldOff => Hold d :: pulses k d
      end
  end.

(** Number of times the buzzer is switched on in a list of signals. *)
Fixpoint count_on (out : list Signal) : nat :=
  match out with
  | [] => O
  | On :: rest => S (count_on rest)
  | _ :: rest => count_on rest
  end.

End PeakBuzzer.

Import PeakBuzzer.

(** ** The InfluxDB readers *)

(** A point of the power query: its time, parsed by [strptime] and counted
    in seconds, and its value in kW. *)
Record PowerPoint : Type := { time : Z; reading : Q }.

(** The points of a [group by rate] query under each of the two rate tags:
    the ['yield'] column, in kW. *)
Record RateSeries : Type := { rate1_points : list Q; rate2_points : list Q }.

(** What the database answers to the three queries at one tick. *)
Record Database : Type := {
  power_now : list PowerPoint;
  peak_today : RateSeries;
  peak_month : RateSeries
}.

(** [sorted(results, key=lambda x: x['time'])]: a stable sort. *)
Fixpoint insert_by_time (p : PowerPoint) (sorted : list PowerPoint) : list PowerPoint :=
  match sorted with
  | [] => [p]
  | q :: rest =>
      if time q <=? time p then q :: insert_by_time p rest else p :: q :: rest
  end.

Definition sorted_by_time (results : list PowerPoint) : list PowerPoint :=
  fold_left (fun acc p => insert_by_time p acc) results [].

(** [get_current_power] from line 122 on, on points whose times are already
    parsed; [get_current_power_text] below has the parsing of lines 117 to
    120 in front. *)
Definition get_current_power (rs : list PowerPoint) : option Q :=
  (latest <- last_item (sorted_by_time rs) ;;
   let current_power := (reading latest * 1000)%Q in
   Some (py_max 0 [current_power]))%py.

Definition get_current_peak (rs : RateSeries) : option Q :=
  (rate1 <- last_item (rate1_points rs) ;;
   rate2 <- last_item (rate2_points rs) ;;
   Some (py_max rate1 [rate2] * 1000)%Q)%py.

Definition get_monthly_peak (rs : RateSeries) : option Q :=
  (rate1 <- max_of (rate1_points rs) ;;
   rate2 <- max_of (rate2_points rs) ;;
   Some (py_max rate1 [rate2; 2.5%Q] * 1000)%Q)%py.

(** ** The main loop *)

(** The fields of [datetime.datetime.now()] the loop looks at. *)
Record datetime : Set := { hour : Z; minute : Z; second : Z }.

(** The ranges [datetime] keeps its fields in. *)
Definition valid (now : datetime) : Prop :=
  0 <= hour now < 24 /\ 0 <= minute now < 60 /\ 0 <= second now < 60.

(** The module-level variables the loop reads and writes: [monthly_peak] and
    the [state] attribute of [buzzer]. *)
Record Globals : Type := { monthly_peak : Q; buzzer_state : Alarm }.

(** What one pass of the loop does besides computing. *)
Inductive Effect : Type :=
| QueryMonthlyPeak
| QueryCurrentPower
| QueryCurrentPeak
| SetAlarm (level : Alarm)
| Sleep.

(** The five exits of the loop body, in the order the code tests them. *)
Inductive Branch : Set := Refresh | IdlePeriod | Settling | OffCadence | Sample.

Definition branch (now : datetime) : Branch :=
  if (minute now mod 15 =? 0) && (second now - 1 =? 0) then Refresh
  else if (hour now >=? 23) || (hour now <=? 6) then IdlePeriod
  else if minute now mod 15 <? 5 then Settling
  else if negb ((second now - 1) mod 30 =? 0) then OffCadence
  else Sample.

(** The test of line 174. *)
Definition idle_period (now : datetime) : Prop := 23 <= hour now \/ hour now <= 6.

(** The test of line 169. *)
Definition on_quarter (now : datetime) : Prop :=
  minute now mod 15 = 0 /\ second now - 1 = 0.

Definition total_seconds : Z := 15 * 60.

Definition seconds_passed (now : datetime) : Z :=
  ((minute now mod 15) * 60) + second now.

Definition continuation_chance (seconds_passed : Z) : Q :=
  0.25 + (0.75 * (inject_Z seconds_passed / inject_Z total_seconds)).

Definition current_peak_estimate_linear (current_peak : Q) (seconds_passed : Z)
  : option Q :=
  (pace <- truediv current_peak (inject_Z seconds_passed) ;;
   Some (pace * inject_Z total_seconds)%Q)%py.

Definition current_peak_estimate_continuation
    (current_peak current_power : Q) (seconds_passed : Z) : Q :=
  current_peak +
  (current_power * inject_Z (total_seconds - seconds_passed) / (3600 / 4)).

Definition current_peak_estimate (linear continuation chance : Q) : option Q :=
  truediv (linear + continuation + (continuation * chance)) (2 + chance).

(** The [if]/[elif] chain on [ratio]. *)
Definition alarm_of_ratio (ratio : Q) : Alarm :=
  if lt ratio 0.9 then IDLE
  else if lt ratio 1 then LEVEL_1
  else if lt ratio 1.1 then LEVEL_2
  else LEVEL_3.

(** Lines 208 to 217: the level for an estimate against the monthly peak. *)
Definition alarm (current_peak_estimate monthly_peak : Q) : option Alarm :=
  (ratio <- truediv current_peak_estimate monthly_peak ;;
   Some (alarm_of_ratio ratio))%py.

(** Lines 186 to 200 on the two readings: the blended estimate. *)
Definition estimate (current_peak current_power : Q) (seconds_passed : Z)
  : option Q :=
  (let chance := continuation_chance seconds_passed in
   linear <- current_peak_estimate_linear current_peak seconds_passed ;;
   let continuation :=
     current_peak_estimate_continuation current_peak current_power seconds_passed in
   current_peak_estimate linear continuation chance)%py.

(** One pass through the body of the main [while True]. *)
Definition loop_body (now : datetime) (db : Database) (g : Globals)
  : option (Globals * list Effect) :=
  (match branch now with
   | Refresh =>
       peak <- get_monthly_peak (peak_month db) ;;
       Some ({| monthly_peak := peak; buzzer_state := buzzer_state g |},
             [QueryMonthlyPeak; Sleep])
   | IdlePeriod | Settling | OffCadence =>
       Some (g, [Sleep])
   | Sample =>
       current_power <- get_current_power (power_now db) ;;
       current_peak <- get_current_peak (peak_today db) ;;
       blended <- estimate current_peak current_power (seconds_passed now) ;;
       level <- alarm blended (monthly_peak g) ;;
       Some ({| monthly_peak := monthly_peak g;
                buzzer_state := set_alarm level (buzzer_state g) |},
             [QueryCurrentPower; QueryCurrentPeak; SetAlarm level; Sleep])
   end)%py.

(** ** The numeric part of the loop body in binary64

    The same expressions, operator for operator, over the primitive floats.
    An [int] operand of a mixed operation is first converted, as Python
    does. *)

Module Binary64.

Import PrimFloat.
Local Open Scope float_scope.

#[local] Set Warnings "-inexact-float".

Definition of_int (n : Z) : float := of_uint63 (Uint63.of_Z n).

Definition truediv (a b : float) : option float :=
  if b =? 0 then None else Some (a / b).

Definition py_max (x : float) (ys : list float) : float :=
  fold_left (fun m y => if m <? y then y else m) ys x.

Definition monthly_floor (rate1 rate2 : float) : float :=
  py_max rate1 [rate2; 2.5] * of_int 1000.

Definition continuation_chance (seconds_passed : Z) : float :=
  0.25 + (0.75 * (of_int seconds_passed / of_int total_seconds)).

Definition current_peak_estimate_linear (current_peak : float) (seconds_passed : Z)
  : option float :=
  (pace <- truediv current_peak (of_int seconds_passed) ;;
   Some (pace * of_int total_seconds))%py.

Definition current_peak_estimate_continuation
    (current_peak current_power : float) (seconds_passed : Z) : float :=
  current_peak +
  (current_power * of_int (total_seconds - seconds_passed)
   / (of_int 3600 / of_int 4)).

Definition current_peak_estimate (linear continuation chance : float)
  : option float :=
  truediv (linear + continuation + (continuation * chance)) (of_int 2 + chance).

Definition alarm_of_ratio (ratio : float) : Alarm :=
  if ratio <? 0.9 then IDLE
  else if ratio <? of_int 1 then LEVEL_1
  else if ratio <? 1.1 then LEVEL_2
  else LEVEL_3.

Definition estimate (current_peak current_power : float) (seconds_passed : Z)
  : option float :=
  (let chance := continuation_chance seconds_passed in
   linear <- current_peak_estimate_linear current_peak seconds_passed ;;
   let continuation :=
     current_peak_estimate_continuation current_peak current_power seconds_passed in
   current_peak_estimate linear continuation chance)%py.

(** Lines 208 to 217. *)
Definition alarm (current_peak_estimate monthly_peak : float) : option Alarm :=
  (ratio <- truediv current_peak_estimate monthly_peak ;;
   Some (alarm_of_ratio ratio))%py.

End Binary64.

(** ** Data for the examples *)

(** 23:00:01, a tick of the idle period on a quarter-hour boundary. *)
Definition night_quarter : datetime := {| hour := 23; minute := 0; second := 1 |}.

(** 02:17:31, a tick of the idle period away from any boundary. *)
Definition night_plain : datetime := {| hour := 2; minute := 17; second := 31 |}.

(** 14:05:01, the first sampling tick of a window. *)
Definition first_sample : datetime := {| hour := 14; minute := 5; second := 1 |}.

(** A database whose month so far peaked at 3 kW under rate 1. *)
Definition db_3kW : Database := {|
  power_now := [ {| time := 1700000000; reading := 1.5 |} ];
  peak_today := {| rate1_points := [0.8%Q; 1.1%Q]; rate2_points := [0.6%Q] |};
  peak_month := {| rate1_points := [1.2%Q; 3%Q]; rate2_points := [1.8%Q] |}
|}.

(** A month whose peaks stayed at 1.2 kW and 1.8 kW. *)
Definition low_month : RateSeries :=
  {| rate1_points := [1.2%Q]; rate2_points := [1.8%Q] |}.

(** The globals after start-up on a low month. *)
Definition globals_start : Globals := {| monthly_peak := 2500; buzzer_state := IDLE |}.

(** A [LEVEL_1] pattern during which the main thread asks for [LEVEL_3] and
    then for [LEVEL_2]. *)
Definition busy_schedule : list Move :=
  [Thread; Main LEVEL_3; Thread; Thread; Main LEVEL_2; Thread; Thread; Main LEVEL_3].

(** ** The rest of the module *)

(** [x % 1] on a float: what [x] has above the whole number just below it,
    also for a negative [x]. *)
Definition mod_one (x : Q) : Q := (x - inject_Z (Qfloor x))%Q.

(** [sleep()]: the seconds handed to [time.sleep] when [time.monotonic()]
    returns [monotonic]. *)
Definition sleep (monotonic : Q) : Q := (1 - mod_one monotonic)%Q.

(** Lines 105 to 107 and 161, the statements before the loop:
    [PeakBuzzer()] runs [__init__], which sets [IDLE]; then [TEST] is set and
    the month is read. *)
Definition startup (db : Database) : option (Globals * list Effect) :=
  (let state := set_alarm IDLE IDLE in
   let state := set_alarm TEST state in
   peak <- get_monthly_peak (peak_month db) ;;
   Some ({| monthly_peak := peak; buzzer_state := state |},
         [SetAlarm IDLE; SetAlarm TEST; QueryMonthlyPeak]))%py.

(** The main [while True], cut after the given ticks: the clock reading and
    the database of each pass.  [buzzer_state] follows the writes of the main
    thread only; the loop never reads it. *)
Fixpoint main_loop (ticks : list (datetime * Database)) (g : Globals)
  : option (Globals * list Effect) :=
  match ticks with
  | [] => Some (g, [])
  | (now, db) :: rest =>
      (pass <- loop_body now db g ;;
       later <- main_loop rest (fst pass) ;;
       Some (fst later, snd pass ++ snd later))%py
  end.

(** The module from line 105 on. *)
Definition program (boot : Database) (ticks : list (datetime * Database))
  : option (Globals * list Effect) :=
  (started <- startup boot ;;
   looped <- main_loop ticks (fst started) ;;
   Some (fst looped, snd started ++ snd looped))%py.

(** *** [get_current_power] from the times as text

    [get_points] yields the time of a point as text; lines 117 to 120 put it
    through [datetime.strptime] before anything else.  [strptime] stands for
    [datetime.datetime.strptime(_, '%Y-%m-%dT%H:%M:%SZ')]: the seconds of the
    time it reads, [None] where it raises [ValueError]. *)

Record TextPoint : Type := { time_text : String.string; text_reading : Q }.

(** The [for] loop of lines 118 to 120: it raises at the first time that
    does not parse. *)
Fixpoint parse_points (strptime : String.string -> option Z)
    (points : list TextPoint) : option (list PowerPoint) :=
  match points with
  | [] => Some []
  | r :: rest =>
      (t <- strptime (time_text r) ;;
       results <- parse_points strptime rest ;;
       Some ({| time := t; reading := text_reading r |} :: results))%py
  end.

(** Lines 110 to 126 in full: parse, then sort, take the last and clamp. *)
Definition get_current_power_text (strptime : String.string -> option Z)
    (points : list TextPoint) : option Q :=
  (results <- parse_points strptime points ;;
   get_current_power results)%py.

(** *** Observers *)

(** Whether the buzzer sounds after a run of signals, given whether it
    sounded before. *)
Definition switch (on : bool) (s : Signal) : bool :=
  match s with
  | On => true
  | Off => false
  | Hold _ | Tick => on
  end.

Definition sounding (on : bool) (out : list Signal) : bool :=
  fold_left switch out on.

(** The points of [run] between [self.buzzer.on()] and [self.buzzer.off()]. *)
Definition in_pulse (p : Point) : bool :=
  match p with
  | InPattern _ (S _) HoldOn | InPattern _ (S _) SwitchOff => true
  | _ => false
  end.

(** The levels the main loop chooses from. *)
Definition loop_level (level : Alarm) : bool := negb (Alarm_eqb level TEST).

Fixpoint main_levels (schedule : list Move) : bool :=
  match schedule with
  | [] => true
  | Thread :: rest => main_levels rest
  | Main level :: rest => loop_level level && main_levels rest
  end.

(** The number of [SetAlarm] effects for a level. *)
Fixpoint count_set (level : Alarm) (effects : list Effect) : nat :=
  match effects with
  | [] => O
  | SetAlarm l :: rest =>
      if Alarm_eqb l level then S (count_set level rest) else count_set level rest
  | _ :: rest => count_set level rest
  end.


(** No pattern under way has more than three pulses left, and [TEST] is not
    about to be read as a number of pulses. *)
Definition short_pattern (c : Config) : Prop :=
  match point c with
  | AtLevelRange => state c <> TEST
  | InPattern d n _ => (n <= 3)%nat /\ (d = 0.1%Q \/ d = 0.5%Q)
  | _ => True
  end.

(** *** More data for the examples *)

(** Import at 1.5 kW read before an export of 0.3 kW, the later point
    first in the result. *)
Definition export_last : list PowerPoint :=
  [ {| time := 1700000060; reading := - 0.3 |};
    {| time := 1700000000; reading := 1.5 |} ].

(** A morning: a refresh at 07:00:01, the settling tick 07:02:01, the first
    sample at 07:05:01. *)
Definition morning : list (datetime * Database) :=
  [ ({| hour := 7; minute := 0; second := 1 |}, db_3kW);
    ({| hour := 7; minute := 2; second := 1 |}, db_3kW);
    ({| hour := 7; minute := 5; second := 1 |}, db_3kW) ].

(** * Properties *)

(** ** Comparison, division and [max] on exact numbers *)

Section Numbers.

Local Open Scope Q_scope.

Lemma lt_true_iff (a b : Q) : lt a b = true <-> a < b.
Proof.
  unfold lt. rewrite negb_true_iff. split.
  - intros H. apply Qnot_le_lt. intros Hle.
    apply Qle_bool_iff in Hle. congruence.
  - intros H. destruct (Qle_bool b a) eqn:E; [|reflexivity].
    apply Qle_bool_iff in E. exfalso. exact (Qlt_not_le _ _ H E).
Qed.

Lemma lt_false_iff (a b : Q) : lt a b = false <-> b <= a.
Proof.
  unfold lt. rewrite negb_false_iff. apply Qle_bool_iff.
Qed.

Lemma truediv_defined (a b : Q) : ~ b == 0 -> truediv a b = Some (a / b).
Proof.
  intros Hb. unfold truediv. destruct (Qeq_bool b 0) eqn:E; [|reflexivity].
  apply Qeq_bool_iff in E. contradiction.
Qed.

Lemma truediv_zero (a b : Q) : b == 0 -> truediv a b = None.
Proof.
  intros Hb. unfold truediv. apply Qeq_bool_iff in Hb. now rewrite Hb.
Qed.

(** A quotient by a positive number, between two bounds. *)
Lemma div_between (lo hi a b : Q) :
  0 < b -> lo * b <= a -> a <= hi * b -> lo <= a / b <= hi.
Proof.
  intros Hb Hlo Hhi. split.
  - now apply Qle_shift_div_l.
  - now apply Qle_shift_div_r.
Qed.

Lemma div_le_mono (a b c : Q) : 0 < c -> a <= b -> a / c <= b / c.
Proof.
  intros Hc Hab. apply Qle_shift_div_r; [assumption|].
  unfold Qdiv. rewrite <- Qmult_assoc, (Qmult_comm (/ c)), Qmult_inv_r by lra.
  lra.
Qed.

(** The running maximum never drops below its start nor below an item. *)
Lemma py_max_start (ys : list Q) (x : Q) : x <= py_max x ys.
Proof.
  unfold py_max. revert x. induction ys as [|y ys IH]; intros x; simpl.
  - lra.
  - destruct (lt x y) eqn:E.
    + apply lt_true_iff in E. specialize (IH y). lra.
    + apply IH.
Qed.

Lemma py_max_item (ys : list Q) (x y : Q) : In y ys -> y <= py_max x ys.
Proof.
  unfold py_max. revert x. induction ys as [|z ys IH]; intros x Hin; simpl.
  - destruct Hin.
  - destruct Hin as [-> | Hin].
    + destruct (lt x y) eqn:E.
      * apply (py_max_start ys y).
      * apply lt_false_iff in E. pose proof (py_max_start ys x). 
        unfold py_max in H. lra.
    + now apply IH.
Qed.

(** The running maximum is its start or one of the items. *)
Lemma py_max_in (ys : list Q) (x : Q) : py_max x ys = x \/ In (py_max x ys) ys.
Proof.
  unfold py_max. revert x. induction ys as [|y ys IH]; intros x; simpl.
  - now left.
  - destruct (lt x y).
    + destruct (IH y) as [-> | H]; auto.
    + destruct (IH x) as [-> | H]; auto.
Qed.

End Numbers.

(** ** The alarm level for a ratio *)

Section AlarmLevel.

Local Open Scope Q_scope.

(** The four bands of the [if]/[elif] chain. *)
Lemma alarm_of_ratio_bands (ratio : Q) :
  (ratio < 0.9 -> alarm_of_ratio ratio = IDLE) /\
  (0.9 <= ratio < 1 -> alarm_of_ratio ratio = LEVEL_1) /\
  (1 <= ratio < 1.1 -> alarm_of_ratio ratio = LEVEL_2) /\
  (1.1 <= ratio -> alarm_of_ratio ratio = LEVEL_3).
Proof.
  unfold alarm_of_ratio.
  destruct (lt ratio 0.9) eqn:E1;
    [apply lt_true_iff in E1 | apply lt_false_iff in E1];
  (destruct (lt ratio 1) eqn:E2;
    [apply lt_true_iff in E2 | apply lt_false_iff in E2]);
  (destruct (lt ratio 1.1) eqn:E3;
    [apply lt_true_iff in E3 | apply lt_false_iff in E3]);
  repeat split; intros; try reflexivity; exfalso; lra.
Qed.

Lemma alarm_of_ratio_mono (r1 r2 : Q) :
  r1 <= r2 -> (value (alarm_of_ratio r1) <= value (alarm_of_ratio r2))%Z.
Proof.
  intros Hle. unfold alarm_of_ratio.
  destruct (lt r1 0.9) eqn:A1;
    [apply lt_true_iff in A1 | apply lt_false_iff in A1];
  (destruct (lt r1 1) eqn:A2;
    [apply lt_true_iff in A2 | apply lt_false_iff in A2]);
  (destruct (lt r1 1.1) eqn:A3;
    [apply lt_true_iff in A3 | apply lt_false_iff in A3]);
  (destruct (lt r2 0.9) eqn:B1;
    [apply lt_true_iff in B1 | apply lt_false_iff in B1]);
  (destruct (lt r2 1) eqn:B2;
    [apply lt_true_iff in B2 | apply lt_false_iff in B2]);
  (destruct (lt r2 1.1) eqn:B3;
    [apply lt_true_iff in B3 | apply lt_false_iff in B3]);
  simpl; try lia; exfalso; lra.
Qed.

(** C10: against a fixed monthly peak above zero the level does not drop
    when the estimate grows, levels being ordered by their [value]:
    [IDLE] (0) < [LEVEL_1] (1) < [LEVEL_2] (2) < [LEVEL_3] (3). *)
Theorem alarm_monotone (monthly_peak estimate1 estimate2 : Q) :
  0 < monthly_peak ->
  estimate1 <= estimate2 ->
  exists level1 level2,
    alarm estimate1 monthly_peak = Some level1 /\
    alarm estimate2 monthly_peak = Some level2 /\
    (value level1 <= value level2)%Z /\
    In level1 [IDLE; LEVEL_1; LEVEL_2; LEVEL_3] /\
    In level2 [IDLE; LEVEL_1; LEVEL_2; LEVEL_3].
Proof.
  intros Hpos Hle.
  exists (alarm_of_ratio (estimate1 / monthly_peak)),
         (alarm_of_ratio (estimate2 / monthly_peak)).
  unfold alarm. rewrite !truediv_defined by lra.
  repeat split.
  - apply alarm_of_ratio_mono. now apply div_le_mono.
  - unfold alarm_of_ratio. simpl.
    repeat match goal with |- context [if ?b then _ else _] => destruct b end; tauto.
  - unfold alarm_of_ratio. simpl.
    repeat match goal with |- context [if ?b then _ else _] => destruct b end; tauto.
Qed.

Lemma alarm_monotone_witness :
  0 < 2500 /\ 2300 <= 2600 /\
  exists level1 level2,
    alarm 2300 2500 = Some level1 /\
    alarm 2600 2500 = Some level2 /\
    (value level1 <= value level2)%Z /\
    In level1 [IDLE; LEVEL_1; LEVEL_2; LEVEL_3] /\
    In level2 [IDLE; LEVEL_1; LEVEL_2; LEVEL_3].
Proof.
  split; [reflexivity|]. split; [discriminate|].
  apply (alarm_monotone 2500 2300 2600); [reflexivity | discriminate].
Defined.

End AlarmLevel.

(** ** The estimator *)

Section Estimator.

Import PrimFloat.
Local Open Scope Q_scope.

Lemma inject_Z_total_seconds : inject_Z total_seconds == 900.
Proof. reflexivity. Qed.

Lemma continuation_chance_eq (s : Z) :
  continuation_chance s == 0.25 + 0.75 * inject_Z s / 900.
Proof.
  unfold continuation_chance. rewrite inject_Z_total_seconds.
  unfold Qdiv. ring.
Qed.

Lemma continuation_chance_bounds (s : Z) :
  (0 < s < 900)%Z -> 0.25 <= continuation_chance s <= 1.
Proof.
  intros [Hlo Hhi].
  rewrite Zlt_Qlt in Hlo, Hhi.
  change (inject_Z 0) with 0 in Hlo. change (inject_Z 900) with 900 in Hhi.
  rewrite continuation_chance_eq. unfold Qdiv.
  change (/ 900) with (1 # 900). split; lra.
Qed.



(** C9, amended: for a weight in [0.25, 1] the blended estimate
    (linear + continuation + continuation * weight) / (2 + weight), taken in
    exact arithmetic, is defined and lies between the smaller and the larger
    of the linear and the continuation estimate, both included.  The double
    the program computes rounds every operation and can leave that interval
    by a rounding error. *)
Theorem estimate_between (linear continuation chance : Q) :
  0.25 <= chance <= 1 ->
  exists blended,
    current_peak_estimate linear continuation chance = Some blended /\
    blended == (linear + continuation + continuation * chance) / (2 + chance) /\
    Qmin linear continuation <= blended <= Qmax linear continuation.
Proof.
  intros [Hlo Hhi].
  exists ((linear + continuation + continuation * chance) / (2 + chance)).
  split; [apply truediv_defined; lra|]. split; [reflexivity|].
  apply div_between; [lra | |].
  - destruct (Q.min_spec linear continuation) as [[Hlt ->] | [Hle ->]]; nra.
  - destruct (Q.max_spec linear continuation) as [[Hlt ->] | [Hle ->]]; nra.
Qed.

Lemma estimate_between_witness :
  0.25 <= 0.625 <= 1 /\
  exists blended,
    current_peak_estimate 6000 5000 0.625 = Some blended /\
    blended == (6000 + 5000 + 5000 * 0.625) / (2 + 0.625) /\
    Qmin 6000 5000 <= blended <= Qmax 6000 5000.
Proof.
  split; [split; discriminate|].
  apply (estimate_between 6000 5000 0.625). split; discriminate.
Defined.

(** C3: with a window peak of 3000 W, a current power of 4000 W and 450
    seconds passed, the linear estimate is 6000, the continuation estimate
    5000, the weight 0.625 and the blended estimate 14125 / 2.625, which is
    5381 to the nearest watt; in exact arithmetic and in binary64 alike. *)
Theorem worked_example :
  exists linear blended blended',
    current_peak_estimate_linear 3000 450 = Some linear /\
    linear == 6000 /\
    current_peak_estimate_continuation 3000 4000 450 == 5000 /\
    continuation_chance 450 == 0.625 /\
    current_peak_estimate 6000 5000 0.625 = Some blended' /\
    blended' == 14125 / 2.625 /\
    estimate 3000 4000 450 = Some blended /\
    blended == 14125 / 2.625 /\
    5380.5 < blended < 5381.5 /\
    Binary64.current_peak_estimate_linear 3000 450 = Some 6000%float /\
    Binary64.current_peak_estimate_continuation 3000 4000 450 = 5000%float /\
    Binary64.continuation_chance 450 = 0.625%float /\
    Binary64.estimate 3000 4000 450 = Binary64.truediv 14125 2.625 /\
    Binary64.estimate 3000 4000 450 = Some 0x1.504f3cf3cf3cfp+12%float.
Proof.
  exists (3000 / inject_Z 450 * inject_Z total_seconds).
  do 2 eexists.
  split; [reflexivity|]. split; [reflexivity|].
  split; [reflexivity|]. split; [reflexivity|].
  split; [reflexivity|]. split; [reflexivity|].
  split; [reflexivity|].
  repeat split; vm_compute; reflexivity.
Qed.

End Estimator.

(** ** The monthly peak *)

Section MonthlyPeak.

Import PrimFloat.
Local Open Scope Q_scope.

(** [max(rate1, rate2, 2.5) * 1000] is never below 2500, and is 2500 when
    neither rate went above 2.5 kW. *)
Lemma floor_of_pair (rate1 rate2 : Q) :
  2500 <= py_max rate1 [rate2; 2.5] * 1000 /\
  (rate1 <= 2.5 -> rate2 <= 2.5 -> py_max rate1 [rate2; 2.5] * 1000 == 2500).
Proof.
  unfold py_max. simpl.
  destruct (lt rate1 rate2) eqn:E1;
    [apply lt_true_iff in E1 | apply lt_false_iff in E1].
  - destruct (lt rate2 2.5) eqn:E2;
      [apply lt_true_iff in E2 | apply lt_false_iff in E2];
      split; try intros H1 H2; lra.
  - destruct (lt rate1 2.5) eqn:E2;
      [apply lt_true_iff in E2 | apply lt_false_iff in E2];
      split; try intros H1 H2; lra.
Qed.

Lemma max_of_defined (xs : list Q) :
  xs <> [] -> exists m, max_of xs = Some m /\ In m xs /\ forall x, In x xs -> x <= m.
Proof.
  destruct xs as [|x ys]; [congruence|]. intros _.
  exists (py_max x ys). split; [reflexivity|]. split.
  - destruct (py_max_in ys x) as [-> | H]; [now left | now right].
  - intros y [<- | Hin]; [apply py_max_start | now apply py_max_item].
Qed.

(** C4: whatever peaks the month shows under the two rates,
    [get_monthly_peak] returns at least 2500 W; it returns exactly 2500 W
    when every observed peak is at or below 2.5 kW, as for 1.2 kW (1200 W)
    and 1.8 kW (1800 W). *)
Theorem monthly_peak_floor (rs : RateSeries) :
  rate1_points rs <> [] ->
  rate2_points rs <> [] ->
  exists peak,
    get_monthly_peak rs = Some peak /\
    2500 <= peak /\
    ((forall y, In y (rate1_points rs ++ rate2_points rs) -> y <= 2.5) ->
     peak == 2500).
Proof.
  intros H1 H2.
  destruct (max_of_defined _ H1) as (m1 & E1 & In1 & _).
  destruct (max_of_defined _ H2) as (m2 & E2 & In2 & _).
  exists (py_max m1 [m2; 2.5] * 1000).
  unfold get_monthly_peak. rewrite E1, E2.
  destruct (floor_of_pair m1 m2) as [Hfloor Hlow].
  repeat split; [exact Hfloor|].
  intros Hall. apply Hlow; apply Hall; apply in_or_app; auto.
Qed.

Lemma monthly_peak_floor_witness :
  rate1_points low_month <> [] /\
  rate2_points low_month <> [] /\
  exists peak,
    get_monthly_peak low_month = Some peak /\
    2500 <= peak /\
    ((forall y, In y (rate1_points low_month ++ rate2_points low_month) -> y <= 2.5) ->
     peak == 2500).
Proof.
  split; [discriminate|]. split; [discriminate|].
  apply (monthly_peak_floor low_month); discriminate.
Defined.

(** A raise is the only other outcome: whenever [get_monthly_peak] returns,
    the value is at least 2500 W. *)
Lemma monthly_peak_floor_returned (rs : RateSeries) (peak : Q) :
  get_monthly_peak rs = Some peak -> 2500 <= peak.
Proof.
  unfold get_monthly_peak.
  destruct (max_of (rate1_points rs)) as [m1|]; [|discriminate].
  destruct (max_of (rate2_points rs)) as [m2|]; [|discriminate].
  intros [= <-]. apply floor_of_pair.
Qed.

(** The month of the example: 1.2 kW and 1.8 kW give 2500 W, in exact
    arithmetic and in binary64. *)
Lemma low_month_peak :
  (exists peak, get_monthly_peak low_month = Some peak /\ peak == 2500) /\
  Binary64.monthly_floor 0x1.3333333333333p+0%float 0x1.ccccccccccccdp+0%float
  = 2500%float.
Proof.
  split; [eexists; split; reflexivity|].
  vm_compute. reflexivity.
Qed.

End MonthlyPeak.

(** ** The main loop *)

Section MainLoop.

Local Open Scope Z_scope.

Lemma branch_refresh_iff (now : datetime) : branch now = Refresh <-> on_quarter now.
Proof.
  unfold branch, on_quarter.
  destruct (minute now mod 15 =? 0) eqn:E1; simpl.
  - destruct (second now - 1 =? 0) eqn:E2.
    + apply Z.eqb_eq in E1, E2. split; [intros _; lia | reflexivity].
    + apply Z.eqb_neq in E2. split.
      * repeat match goal with |- context [if ?b then _ else _] => destruct b end;
          discriminate.
      * lia.
  - apply Z.eqb_neq in E1. split.
    + repeat match goal with |- context [if ?b then _ else _] => destruct b end;
        discriminate.
    + lia.
Qed.

Lemma branch_idle_period (now : datetime) :
  idle_period now -> branch now = Refresh \/ branch now = IdlePeriod.
Proof.
  unfold branch, idle_period. intros Hidle.
  destruct ((minute now mod 15 =? 0) && (second now - 1 =? 0)); [now left|].
  right.
  destruct (hour now >=? 23) eqn:E1; [reflexivity|].
  destruct (hour now <=? 6) eqn:E2; [reflexivity|].
  rewrite Z.geb_leb in E1. apply Z.leb_gt in E1, E2. lia.
Qed.

Lemma branch_sample_iff (now : datetime) :
  branch now = Sample <->
  ~ idle_period now /\ 5 <= minute now mod 15 /\ (second now - 1) mod 30 = 0.
Proof.
  unfold branch, idle_period.
  destruct (minute now mod 15 =? 0) eqn:E0;
  destruct (second now - 1 =? 0) eqn:E0';
  destruct (hour now >=? 23) eqn:E1;
  destruct (hour now <=? 6) eqn:E2;
  destruct (minute now mod 15 <? 5) eqn:E3;
  destruct ((second now - 1) mod 30 =? 0) eqn:E4; simpl;
  rewrite ?Z.geb_leb in *;
  rewrite ?Z.eqb_eq, ?Z.eqb_neq, ?Z.leb_le, ?Z.leb_gt, ?Z.ltb_lt, ?Z.ltb_ge in *;
  split; try discriminate; try reflexivity; lia.
Qed.

Lemma seconds_passed_sample (now : datetime) :
  valid now -> branch now = Sample -> 300 <= seconds_passed now < 900.
Proof.
  intros (_ & _ & Hs) Hb. apply branch_sample_iff in Hb.
  destruct Hb as (_ & Hm & _).
  pose proof (Z.mod_pos_bound (minute now) 15 ltac:(lia)).
  unfold seconds_passed. lia.
Qed.

(** From second 1 of a window on, the whole estimator is defined. *)
Lemma estimate_defined (current_peak current_power : Q) (s : Z) :
  0 < s < 900 -> exists blended, estimate current_peak current_power s = Some blended.
Proof.
  intros Hs. unfold estimate, current_peak_estimate_linear.
  destruct (continuation_chance_bounds s Hs) as [Hc _].
  destruct Hs as [Hlo _].
  rewrite Zlt_Qlt in Hlo. change (inject_Z 0) with 0%Q in Hlo.
  rewrite truediv_defined by lra.
  unfold current_peak_estimate. rewrite truediv_defined by lra.
  eexists. reflexivity.
Qed.

(** C7: on a tick that takes the sampling branch, that is, outside the idle
    period, with minute mod 15 at least 5 and (second - 1) mod 30 = 0,
    [seconds_passed] is at least 300 (and below 900), so the division by it
    in the linear estimate does not raise and the estimator returns. *)
Theorem sampling_seconds_passed (now : datetime) :
  valid now ->
  branch now = Sample ->
  (~ idle_period now /\ 5 <= minute now mod 15 /\ (second now - 1) mod 30 = 0) /\
  300 <= seconds_passed now < 900 /\
  (forall current_peak,
     current_peak_estimate_linear current_peak (seconds_passed now)
     = Some (current_peak / inject_Z (seconds_passed now) * inject_Z total_seconds)%Q) /\
  (forall current_peak current_power,
     exists blended,
       estimate current_peak current_power (seconds_passed now) = Some blended).
Proof.
  intros Hv Hb.
  pose proof (seconds_passed_sample now Hv Hb) as Hs.
  split; [now apply branch_sample_iff|]. split; [exact Hs|]. split.
  - intros current_peak. unfold current_peak_estimate_linear.
    rewrite truediv_defined; [reflexivity|].
    intros H0. assert (0 < inject_Z (seconds_passed now))%Q.
    { change 0%Q with (inject_Z 0). rewrite <- Zlt_Qlt. lia. }
    lra.
  - intros current_peak current_power. apply estimate_defined. lia.
Qed.

Lemma sampling_seconds_passed_witness :
  valid first_sample /\
  branch first_sample = Sample /\
  (~ idle_period first_sample /\ 5 <= minute first_sample mod 15 /\
   (second first_sample - 1) mod 30 = 0) /\
  300 <= seconds_passed first_sample < 900 /\
  (forall current_peak,
     current_peak_estimate_linear current_peak (seconds_passed first_sample)
     = Some (current_peak / inject_Z (seconds_passed first_sample)
             * inject_Z total_seconds)%Q) /\
  (forall current_peak current_power,
     exists blended,
       estimate current_peak current_power (seconds_passed first_sample)
       = Some blended).
Proof.
  assert (Hv : valid first_sample) by (unfold valid; simpl; lia).
  split; [exact Hv|]. split; [reflexivity|].
  apply (sampling_seconds_passed first_sample Hv). reflexivity.
Defined.

(** C1 as it is written fails: at 23:00:01 the hour is in the idle period,
    yet the pass takes the refresh branch, queries the month and replaces
    [monthly_peak] (2500 W) by the 3000 W the database holds. *)
Lemma idle_period_refresh_counterexample :
  idle_period night_quarter /\
  branch night_quarter = Refresh /\
  loop_body night_quarter db_3kW globals_start
  = Some ({| monthly_peak := 3000; buzzer_state := IDLE |},
          [QueryMonthlyPeak; Sleep]) /\
  loop_body night_quarter db_3kW globals_start <> Some (globals_start, [Sleep]).
Proof.
  split; [left; simpl; lia|]. split; [reflexivity|]. split; [reflexivity|].
  discriminate.
Qed.

(** C1, amended: on a tick whose hour is 23 or later, or 6 or earlier, the
    pass takes no sample and sets no alarm level.  When minute mod 15 = 0 and
    second = 1 it refreshes the monthly peak, the refresh test coming first
    in the loop; on every other such tick it only sleeps. *)
Theorem idle_period_pass (now : datetime) (db : Database) (g : Globals) :
  idle_period now ->
  (on_quarter now ->
   branch now = Refresh /\
   loop_body now db g =
   match get_monthly_peak (peak_month db) with
   | Some peak =>
       Some ({| monthly_peak := peak; buzzer_state := buzzer_state g |},
             [QueryMonthlyPeak; Sleep])
   | None => None
   end) /\
  (~ on_quarter now ->
   branch now = IdlePeriod /\ loop_body now db g = Some (g, [Sleep])) /\
  (forall g' effects,
     loop_body now db g = Some (g', effects) ->
     buzzer_state g' = buzzer_state g /\
     ~ In QueryCurrentPower effects /\
     ~ In QueryCurrentPeak effects /\
     forall level, ~ In (SetAlarm level) effects).
Proof.
  intros Hidle.
  assert (Hq : on_quarter now -> branch now = Refresh) by apply branch_refresh_iff.
  assert (Hn : ~ on_quarter now -> branch now = IdlePeriod).
  { intros Hno. destruct (branch_idle_period now Hidle) as [Hr | Hi]; [|exact Hi].
    apply branch_refresh_iff in Hr. contradiction. }
  split; [|split].
  - intros Hon. split; [auto|]. unfold loop_body. now rewrite (Hq Hon).
  - intros Hno. split; [auto|]. unfold loop_body. now rewrite (Hn Hno).
  - intros g' effects. unfold loop_body.
    destruct (branch_idle_period now Hidle) as [-> | ->].
    + destruct (get_monthly_peak (peak_month db)); [|discriminate].
      intros [= <- <-]. simpl. repeat split; try intros level; intuition discriminate.
    + intros [= <- <-]. simpl. repeat split; try intros level; intuition discriminate.
Qed.

Lemma idle_period_pass_witness :
  idle_period night_plain /\
  (on_quarter night_plain ->
   branch night_plain = Refresh /\
   loop_body night_plain db_3kW globals_start =
   match get_monthly_peak (peak_month db_3kW) with
   | Some peak =>
       Some ({| monthly_peak := peak; buzzer_state := buzzer_state globals_start |},
             [QueryMonthlyPeak; Sleep])
   | None => None
   end) /\
  (~ on_quarter night_plain ->
   branch night_plain = IdlePeriod /\
   loop_body night_plain db_3kW globals_start = Some (globals_start, [Sleep])) /\
  (forall g' effects,
     loop_body night_plain db_3kW globals_start = Some (g', effects) ->
     buzzer_state g' = buzzer_state globals_start /\
     ~ In QueryCurrentPower effects /\
     ~ In QueryCurrentPeak effects /\
     forall level, ~ In (SetAlarm level) effects).
Proof.
  assert (Hidle : idle_period night_plain) by (right; simpl; lia).
  split; [exact Hidle|].
  exact (idle_period_pass night_plain db_3kW globals_start Hidle).
Defined.

(** Outside the idle period the loop does sample: at 14:05:01, with 1.5 kW
    drawn and a window peak of 1.1 kW against a monthly peak of 2500 W, the
    pass reads both values and sets [LEVEL_2]. *)
Lemma first_sample_pass :
  loop_body first_sample db_3kW globals_start
  = Some ({| monthly_peak := 2500; buzzer_state := LEVEL_2 |},
          [QueryCurrentPower; QueryCurrentPeak; SetAlarm LEVEL_2; Sleep]).
Proof. vm_compute. reflexivity. Qed.

End MainLoop.

(** ** The buzzer thread *)

Section Buzzer.

Lemma count_on_pulses (n : nat) (d : Q) : count_on (pulses n d) = n.
Proof.
  induction n as [|k IH]; simpl; [reflexivity | now rewrite IH].
Qed.

(** The thread, left alone, takes one pass of [run_body] in a fixed number of
    steps: from the test of line 80 back to it, with the same signals and
    the same final state. *)
Lemma thread_alone_run_body (s : Alarm) :
  s <> IDLE ->
  exists steps,
    exec (repeat Thread steps) {| point := AtIdleCheck; state := s |}
    = ({| point := AtIdleCheck; state := snd (run_body s) |}, fst (run_body s)).
Proof.
  intros Hs. destruct s; [congruence | exists 16%nat | exists 9%nat
                         | exists 13%nat | exists 17%nat]; reflexivity.
Qed.

(** C5: one pass of the loop of [run] on state [TEST] gives exactly three
    pulses of 0.1 s on and 0.1 s off and leaves the state [IDLE]; on
    [LEVEL_1], [LEVEL_2] and [LEVEL_3] it gives exactly one, two and three
    pulses of 0.5 s on and 0.5 s off and leaves the state [IDLE]. *)
Theorem run_body_patterns :
  run_body TEST
  = ([On; Hold 0.1; Off; Hold 0.1;
      On; Hold 0.1; Off; Hold 0.1;
      On; Hold 0.1; Off; Hold 0.1], IDLE) /\
  run_body LEVEL_1
  = ([On; Hold 0.5; Off; Hold 0.5], IDLE) /\
  run_body LEVEL_2
  = ([On; Hold 0.5; Off; Hold 0.5;
      On; Hold 0.5; Off; Hold 0.5], IDLE) /\
  run_body LEVEL_3
  = ([On; Hold 0.5; Off; Hold 0.5;
      On; Hold 0.5; Off; Hold 0.5;
      On; Hold 0.5; Off; Hold 0.5], IDLE) /\
  run_body IDLE = ([Tick], IDLE) /\
  count_on (fst (run_body TEST)) = 3%nat /\
  (forall level,
     In level [LEVEL_1; LEVEL_2; LEVEL_3] ->
     run_body level = (pulses (Z.to_nat (value level)) 0.5, IDLE) /\
     Z.of_nat (count_on (fst (run_body level))) = value level).
Proof.
  repeat split; try reflexivity;
    destruct H as [<- | [<- | [<- | []]]]; reflexivity.
Qed.

(** Moves of the main thread alone leave the thread where it stands and
    give no signal. *)
Lemma exec_main_only (schedule : list Move) (c : Config) :
  thread_moves schedule = O ->
  exists s, exec schedule c = ({| point := point c; state := s |}, []).
Proof.
  revert c. induction schedule as [|m rest IH]; intros c Hm.
  - exists (state c). now destruct c.
  - destruct m as [|level]; [discriminate|].
    simpl in Hm. simpl.
    destruct (IH {| point := point c; state := set_alarm level (state c) |} Hm)
      as [s ->].
    now exists s.
Qed.

Lemma exec_app (a b : list Move) (c : Config) :
  exec (a ++ b) c =
  let '(c', out) := exec a c in
  let '(c'', out') := exec b c' in
  (c'', out ++ out').
Proof.
  revert c. induction a as [|m a IH]; intros c; simpl.
  - now destruct (exec b c).
  - destruct (move m c) as [c1 o1]. rewrite IH.
    destruct (exec a c1) as [c2 o2]. destruct (exec b c2) as [c3 o3].
    now rewrite app_assoc.
Qed.

(** From any point inside a pattern, whatever the main thread writes in
    between, the thread gives exactly the signals still due and arrives at
    the reset. *)
Lemma pattern_from (schedule : list Move) :
  forall (d : Q) (left : nat) (ph : Phase) (s : Alarm),
    thread_moves schedule = steps_left left ph ->
    exists s',
      exec schedule {| point := InPattern d left ph; state := s |}
      = ({| point := AtReset; state := s' |}, signals_left d left ph).
Proof.
  induction schedule as [|m rest IH]; intros d left ph s Hm.
  - destruct left, ph; simpl in Hm; lia.
  - destruct m as [|level].
    + destruct left as [|k].
      * simpl in Hm. injection Hm as Hm.
        destruct (exec_main_only rest {| point := AtReset; state := s |} Hm)
          as [s' E].
        exists s'. simpl. destruct ph; simpl; now rewrite E.
      * unfold thread_moves in Hm; fold thread_moves in Hm.
        destruct ph.
        -- destruct (IH d (S k) HoldOn s) as [s' E]; [simpl in *; lia|].
           exists s'. simpl. now rewrite E.
        -- destruct (IH d (S k) SwitchOff s) as [s' E]; [simpl in *; lia|].
           exists s'. simpl. now rewrite E.
        -- destruct (IH d (S k) HoldOff s) as [s' E]; [simpl in *; lia|].
           exists s'. simpl. now rewrite E.
        -- destruct (IH d k SwitchOn s) as [s' E];
             [destruct k; simpl in *; lia|].
           exists s'. simpl. rewrite E. now destruct k.
    + simpl in Hm.
      destruct (IH d left ph (set_alarm level s) Hm) as [s' E].
      exists s'. simpl. now rewrite E.
Qed.

(** C6: once a pattern of [n] pulses has begun, every interleaving of the
    thread's steps with [set_alarm] calls of the main thread gives exactly
    those [n] pulses, and the step after the last pulse leaves the state
    [IDLE]: a level asked for during the pattern neither changes the pattern
    nor survives it. *)
Theorem pattern_runs_to_completion
    (schedule : list Move) (d : Q) (n : nat) (s : Alarm) :
  thread_moves schedule = (4 * n + 1)%nat ->
  exec (schedule ++ [Thread]) {| point := InPattern d n SwitchOn; state := s |}
  = ({| point := AtIdleCheck; state := IDLE |}, pulses n d).
Proof.
  intros Hm.
  destruct (pattern_from schedule d n SwitchOn s) as [s' E].
  { rewrite Hm. destruct n; simpl; lia. }
  rewrite exec_app, E. simpl.
  destruct n; simpl; now rewrite ?app_nil_r.
Qed.

Lemma pattern_runs_to_completion_witness :
  thread_moves busy_schedule = (4 * 1 + 1)%nat /\
  exec (busy_schedule ++ [Thread])
       {| point := InPattern 0.5 1 SwitchOn; state := LEVEL_1 |}
  = ({| point := AtIdleCheck; state := IDLE |}, pulses 1 0.5).
Proof.
  split; [reflexivity|].
  apply (pattern_runs_to_completion busy_schedule 0.5 1 LEVEL_1). reflexivity.
Defined.

(** Where patterns begin: the test of line 84 on [TEST] starts three pulses
    of 0.1 s, the [range] of line 96 starts as many pulses of 0.5 s as the
    [value] of the state it reads. *)
Lemma pattern_begins (s : Alarm) :
  thread_step {| point := AtTestCheck; state := TEST |}
  = ({| point := InPattern 0.1 3 SwitchOn; state := TEST |}, []) /\
  thread_step {| point := AtLevelRange; state := s |}
  = ({| point := InPattern 0.5 (Z.to_nat (value s)) SwitchOn; state := s |}, []).
Proof. split; reflexivity. Qed.

(** Until [range] is evaluated no pattern has begun: a level written by the
    main thread between the tests of lines 80 and 84 and the [range] of line
    96 is the one whose [value] sets the number of pulses. *)
Remark level_read_at_range :
  exec [Thread; Thread; Main LEVEL_3; Thread]
       {| point := AtIdleCheck; state := LEVEL_1 |}
  = ({| point := InPattern 0.5 3 SwitchOn; state := LEVEL_3 |}, []).
Proof. reflexivity. Qed.

(** Start-up: [TEST] is fired once, after which the thread idles. *)
Example run_after_test :
  run 3 TEST = (pulses 3 0.1 ++ [Tick; Tick], IDLE).
Proof. reflexivity. Qed.

End Buzzer.

(** ** The data points of the decision rule in binary64 *)

Section Replay.

Import PrimFloat.

(** The [if]/[elif] chain on the doubles nearest to 0.899999, 0.9, 0.999999,
    1.0, 1.0999 and 1.1. *)
Lemma binary64_boundaries :
  map Binary64.alarm_of_ratio
      [0x1.ccccab3edd8b6p-1; 0x1.ccccccccccccdp-1; 0x1.ffffde7210be9p-1;
       1; 0x1.19930be0ded29p+0; 0x1.199999999999ap+0]%float
  = [IDLE; LEVEL_1; LEVEL_1; LEVEL_2; LEVEL_2; LEVEL_3].
Proof. vm_compute. reflexivity. Qed.

(** The same six points in exact arithmetic. *)
Lemma exact_boundaries :
  map alarm_of_ratio [0.899999; 0.9; 0.999999; 1.0; 1.0999; 1.1]%Q
  = [IDLE; LEVEL_1; LEVEL_1; LEVEL_2; LEVEL_2; LEVEL_3].
Proof. reflexivity. Qed.

End Replay.

(** ** The readers on any result set *)

Section Readers.

Lemma last_item_cons {A : Type} (a : A) (l : list A) :
  l <> [] -> last_item (a :: l) = last_item l.
Proof. destruct l; [congruence | reflexivity]. Qed.

Lemma last_item_none_iff {A : Type} (l : list A) : last_item l = None <-> l = [].
Proof.
  split; [|intros ->; reflexivity].
  induction l as [|a l IH]; [reflexivity|].
  destruct l as [|b l]; [discriminate|].
  intros H. rewrite last_item_cons in H by discriminate.
  apply IH in H. discriminate.
Qed.

Lemma last_item_app {A : Type} (l : list A) (x : A) : last_item (l ++ [x]) = Some x.
Proof.
  induction l as [|a l IH]; [reflexivity|].
  simpl app. rewrite last_item_cons; [exact IH | now destruct l].
Qed.

Lemma last_item_in {A : Type} (l : list A) (x : A) : last_item l = Some x -> In x l.
Proof.
  induction l as [|a l IH]; [discriminate|].
  destruct l as [|b l].
  - intros [= ->]. now left.
  - rewrite last_item_cons by discriminate. intros H. right. now apply IH.
Qed.

Lemma insert_by_time_in (p x : PowerPoint) (l : list PowerPoint) :
  In x (insert_by_time p l) <-> x = p \/ In x l.
Proof.
  induction l as [|q l IH]; simpl.
  - intuition.
  - destruct (time q <=? time p); simpl; rewrite ?IH; intuition.
Qed.

Lemma insert_by_time_nonempty (p : PowerPoint) (l : list PowerPoint) :
  insert_by_time p l <> [].
Proof. destruct l as [|q l]; simpl; [|destruct (time q <=? time p)]; discriminate. Qed.

(** Inserting keeps a newest point at the end, whatever the list was. *)
Lemma insert_by_time_last (p : PowerPoint) (l : list PowerPoint) :
  (forall pt, last_item l = Some pt -> forall q, In q l -> time q <= time pt) ->
  exists pt',
    last_item (insert_by_time p l) = Some pt' /\
    forall q, In q (insert_by_time p l) -> time q <= time pt'.
Proof.
  induction l as [|a l IH]; intros Hlast.
  - exists p. split; [reflexivity|]. intros q [<- | []]. lia.
  - simpl. destruct (time a <=? time p) eqn:E.
    + apply Z.leb_le in E.
      destruct l as [|b l].
      * exists p. split; [reflexivity|]. simpl. intros q [<- | [<- | []]]; lia.
      * destruct IH as (pt' & Hl & Hb).
        { intros pt Hpt q Hq. apply (Hlast pt).
          - now rewrite last_item_cons by discriminate.
          - now right. }
        exists pt'. split.
        -- rewrite last_item_cons by apply insert_by_time_nonempty. exact Hl.
        -- intros q [<- | Hq]; [|now apply Hb].
           destruct (last_item (b :: l)) as [pt|] eqn:Ept;
             [|apply last_item_none_iff in Ept; discriminate].
           assert (Ha : time a <= time pt).
           { apply (Hlast pt);
               [now rewrite last_item_cons by discriminate | now left]. }
           apply last_item_in in Hl. apply insert_by_time_in in Hl.
           destruct Hl as [-> | Hin]; [exact E|].
           assert (Hpt' : time pt' <= time pt).
           { apply (Hlast pt);
               [now rewrite last_item_cons by discriminate | now right]. }
           apply last_item_in in Ept.
           specialize (Hb pt (proj2 (insert_by_time_in p pt (b :: l)) (or_intror Ept))).
           lia.
    + apply Z.leb_gt in E.
      destruct (last_item (a :: l)) as [pt|] eqn:Ept;
        [|apply last_item_none_iff in Ept; discriminate].
      exists pt. split; [now rewrite last_item_cons by discriminate|].
      intros q [<- | Hq]; [|now apply (Hlast pt)].
      specialize (Hlast pt eq_refl a (or_introl eq_refl)). lia.
Qed.

Lemma sorted_by_time_fold (rs acc : list PowerPoint) :
  (forall pt, last_item acc = Some pt -> forall q, In q acc -> time q <= time pt) ->
  let sorted := fold_left (fun acc p => insert_by_time p acc) rs acc in
  (forall x, In x sorted <-> In x rs \/ In x acc) /\
  length sorted = (length rs + length acc)%nat /\
  (forall pt, last_item sorted = Some pt -> forall q, In q sorted -> time q <= time pt).
Proof.
  revert acc. induction rs as [|p rs IH]; intros acc Hacc; simpl.
  - repeat split; auto; intuition.
  - destruct (insert_by_time_last p acc Hacc) as (pt' & Hl & Hb).
    destruct (IH (insert_by_time p acc)) as (Hin & Hlen & Hmax).
    { intros pt Hpt. rewrite Hl in Hpt. injection Hpt as <-. exact Hb. }
    repeat split.
    + intros Hx. apply Hin in Hx. rewrite insert_by_time_in in Hx. intuition.
    + intros Hx. apply Hin. rewrite insert_by_time_in. intuition.
    + rewrite Hlen. clear. induction acc as [|a acc IHa]; simpl; [lia|].
      destruct (time a <=? time p); simpl; lia.
    + exact Hmax.
Qed.

(** [sorted(...)] keeps the points and their number and ends on a newest
    one. *)
Lemma sorted_by_time_spec (rs : list PowerPoint) :
  (forall x, In x (sorted_by_time rs) <-> In x rs) /\
  length (sorted_by_time rs) = length rs /\
  (forall pt, last_item (sorted_by_time rs) = Some pt ->
              forall q, In q rs -> time q <= time pt).
Proof.
  destruct (sorted_by_time_fold rs []) as (Hin & Hlen & Hmax); [discriminate|].
  unfold sorted_by_time. repeat split.
  - intros Hx. apply Hin in Hx. destruct Hx as [Hx | []]. exact Hx.
  - intros Hx. apply Hin. now left.
  - rewrite Hlen. simpl. lia.
  - intros pt Hpt q Hq. apply (Hmax pt Hpt). apply Hin. now left.
Qed.

(** X1: whenever [get_current_power] returns, the value comes from a point
    of the result that no other point is newer than, in whatever order the
    points arrived: 1000 times its reading when that is positive, 0 when it
    is not; so the value is never negative. *)
Theorem get_current_power_newest (rs : list PowerPoint) (power : Q) :
  get_current_power rs = Some power ->
  exists pt,
    In pt rs /\
    (forall q, In q rs -> time q <= time pt) /\
    (0 < reading pt -> power == reading pt * 1000)%Q /\
    (reading pt <= 0 -> power == 0)%Q /\
    (0 <= power)%Q.
Proof.
  unfold get_current_power.
  destruct (last_item (sorted_by_time rs)) as [pt|] eqn:E; [|discriminate].
  intros [= <-]. exists pt.
  destruct (sorted_by_time_spec rs) as (Hin & _ & Hmax).
  split; [apply Hin; now apply last_item_in|].
  split; [now apply Hmax|].
  unfold py_max. simpl.
  destruct (lt 0 (reading pt * 1000)) eqn:L;
    [apply lt_true_iff in L | apply lt_false_iff in L];
    repeat split; intros; lra.
Qed.

Lemma get_current_power_newest_witness :
  get_current_power export_last = Some 0%Q /\
  exists pt,
    In pt export_last /\
    (forall q, In q export_last -> time q <= time pt) /\
    (0 < reading pt -> 0 == reading pt * 1000)%Q /\
    (reading pt <= 0 -> 0 == 0)%Q /\
    (0 <= 0)%Q.
Proof.
  split; [reflexivity|].
  apply (get_current_power_newest export_last 0%Q). reflexivity.
Defined.

(** Once the times are parsed, only [results[-1]] can raise, and it does on
    an empty result. *)
Lemma get_current_power_parsed (rs : list PowerPoint) :
  get_current_power rs = None <-> rs = [].
Proof.
  unfold get_current_power. split.
  - destruct (last_item (sorted_by_time rs)) eqn:E; [discriminate|].
    intros _. apply last_item_none_iff in E.
    destruct (sorted_by_time_spec rs) as (_ & Hlen & _).
    rewrite E in Hlen. destruct rs; [reflexivity | discriminate].
  - intros ->. reflexivity.
Qed.

Lemma parse_points_spec (strptime : String.string -> option Z)
    (points : list TextPoint) :
  match parse_points strptime points with
  | Some results =>
      length results = length points /\
      forall r, In r points -> strptime (time_text r) <> None
  | None => exists r, In r points /\ strptime (time_text r) = None
  end.
Proof.
  induction points as [|r rest IH]; simpl.
  - split; [reflexivity | intros r []].
  - destruct (strptime (time_text r)) as [t|] eqn:Et.
    + destruct (parse_points strptime rest) as [results|].
      * destruct IH as [Hlen Hall]. split; [simpl; now rewrite Hlen|].
        intros r' [<- | Hin]; [congruence | now apply Hall].
      * destruct IH as (r' & Hin & Hbad). exists r'. auto.
    + exists r. auto.
Qed.

(** X2: [get_current_power], from the times as text, raises in exactly two
    cases: the result has no points ([IndexError] at [results[-1]]), or the
    time of one of its points does not parse ([ValueError] in [strptime]). *)
Theorem get_current_power_raises (strptime : String.string -> option Z)
    (points : list TextPoint) :
  get_current_power_text strptime points = None <->
  points = [] \/
  exists r, In r points /\ strptime (time_text r) = None.
Proof.
  unfold get_current_power_text.
  pose proof (parse_points_spec strptime points) as Hparse.
  destruct (parse_points strptime points) as [results|].
  - destruct Hparse as [Hlen Hall]. rewrite get_current_power_parsed. split.
    + intros ->. left. now destruct points.
    + intros [-> | (r & Hin & Hbad)].
      * now destruct results.
      * exfalso. exact (Hall r Hin Hbad).
  - split; [intros _; now right | reflexivity].
Qed.

(** When every time parses, the text reader returns what the reader on the
    parsed points returns. *)
Lemma get_current_power_text_parsed (strptime : String.string -> option Z)
    (points : list TextPoint) (results : list PowerPoint) :
  parse_points strptime points = Some results ->
  get_current_power_text strptime points = get_current_power results.
Proof. unfold get_current_power_text. now intros ->. Qed.

(** X3: [get_current_peak] looks at the last point of each rate only: with
    last points [a] and [b] it returns 1000 times the larger of the two,
    whatever came before them; and it raises exactly when a rate has no
    point. *)
Theorem get_current_peak_last (before1 before2 : list Q) (a b : Q) :
  (exists peak,
     get_current_peak {| rate1_points := before1 ++ [a];
                         rate2_points := before2 ++ [b] |} = Some peak /\
     (peak == Qmax a b * 1000)%Q) /\
  (forall rs,
     get_current_peak rs = None <-> rate1_points rs = [] \/ rate2_points rs = []).
Proof.
  split.
  - unfold get_current_peak. simpl. rewrite !last_item_app.
    eexists. split; [reflexivity|].
    unfold py_max. simpl.
    destruct (lt a b) eqn:L;
      [apply lt_true_iff in L | apply lt_false_iff in L].
    + rewrite Q.max_r by lra. reflexivity.
    + rewrite Q.max_l by lra. reflexivity.
  - intros rs. unfold get_current_peak.
    destruct (last_item (rate1_points rs)) eqn:E1.
    + destruct (last_item (rate2_points rs)) eqn:E2.
      * split; [discriminate|].
        intros [H | H]; apply last_item_none_iff in H; congruence.
      * split; [|reflexivity]. intros _. right. now apply last_item_none_iff.
    + split; [|reflexivity]. intros _. left. now apply last_item_none_iff.
Qed.

(** X4: [get_monthly_peak] raises exactly when a rate has no point in the
    month. *)
Theorem get_monthly_peak_raises (rs : RateSeries) :
  get_monthly_peak rs = None <-> rate1_points rs = [] \/ rate2_points rs = [].
Proof.
  unfold get_monthly_peak.
  destruct (rate1_points rs) as [|x xs]; simpl.
  - split; [now left | reflexivity].
  - destruct (rate2_points rs) as [|y ys]; simpl.
    + split; [now right | reflexivity].
    + split; [discriminate | intros [H | H]; discriminate].
Qed.

(** X5: the monthly peak returned is the product by 1000 of the largest of
    2.5 and the points of both rates: that factor is at least every point of
    either rate and at least 2.5, and it is 2.5 or one of the points. *)
Theorem get_monthly_peak_covers (rs : RateSeries) (peak : Q) :
  get_monthly_peak rs = Some peak ->
  exists top : Q,
    peak = (top * 1000)%Q /\
    (forall y, In y (rate1_points rs ++ rate2_points rs) -> y <= top)%Q /\
    (2.5 <= top)%Q /\
    (top = 2.5%Q \/ In top (rate1_points rs ++ rate2_points rs)).
Proof.
  unfold get_monthly_peak.
  destruct (max_of (rate1_points rs)) as [m1|] eqn:E1; [|discriminate].
  destruct (max_of (rate2_points rs)) as [m2|] eqn:E2; [|discriminate].
  assert (N1 : rate1_points rs <> []) by (intros H; rewrite H in E1; discriminate).
  assert (N2 : rate2_points rs <> []) by (intros H; rewrite H in E2; discriminate).
  destruct (max_of_defined _ N1) as (m1' & E1' & In1 & Max1).
  destruct (max_of_defined _ N2) as (m2' & E2' & In2 & Max2).
  rewrite E1 in E1'. rewrite E2 in E2'.
  injection E1' as <-. injection E2' as <-.
  pose proof (py_max_start [m2; 2.5%Q] m1) as S1.
  pose proof (py_max_item [m2; 2.5%Q] m1 m2 (or_introl eq_refl)) as S2.
  pose proof (py_max_item [m2; 2.5%Q] m1 2.5%Q (or_intror (or_introl eq_refl)))
    as S25.
  pose proof (py_max_in [m2; 2.5%Q] m1) as S3.
  set (m := py_max m1 [m2; 2.5%Q]) in *.
  intros Hpeak. injection Hpeak as <-.
  exists m. split; [reflexivity|]. split; [|split; [exact S25|]].
  - intros y Hy. apply in_app_or in Hy. destruct Hy as [Hy | Hy].
    + specialize (Max1 y Hy). lra.
    + specialize (Max2 y Hy). lra.
  - destruct S3 as [-> | [<- | [<- | []]]].
    + right. apply in_or_app. now left.
    + right. apply in_or_app. now right.
    + now left.
Qed.

Lemma get_monthly_peak_covers_witness :
  get_monthly_peak (peak_month db_3kW) = Some 3000%Q /\
  exists top : Q,
    3000%Q = (top * 1000)%Q /\
    (forall y,
       In y (rate1_points (peak_month db_3kW) ++ rate2_points (peak_month db_3kW)) ->
       y <= top)%Q /\
    (2.5 <= top)%Q /\
    (top = 2.5%Q \/
     In top (rate1_points (peak_month db_3kW) ++ rate2_points (peak_month db_3kW))).
Proof.
  split; [reflexivity|].
  apply (get_monthly_peak_covers (peak_month db_3kW) 3000%Q). reflexivity.
Defined.

End Readers.

(** ** The estimate against the readings *)

Section Readings.

Local Open Scope Q_scope.

(** The estimate spelled out, from second 1 of a window to its last. *)
Lemma estimate_eq (current_peak current_power : Q) (s : Z) :
  (0 < s < 900)%Z ->
  estimate current_peak current_power s
  = Some ((current_peak / inject_Z s * inject_Z total_seconds
           + current_peak_estimate_continuation current_peak current_power s
           + current_peak_estimate_continuation current_peak current_power s
             * continuation_chance s)
          / (2 + continuation_chance s)).
Proof.
  intros Hs. unfold estimate, current_peak_estimate_linear.
  destruct (continuation_chance_bounds s Hs) as [Hc _].
  destruct Hs as [Hlo _].
  rewrite Zlt_Qlt in Hlo. change (inject_Z 0) with 0 in Hlo.
  rewrite truediv_defined by lra.
  unfold current_peak_estimate. now rewrite truediv_defined by lra.
Qed.

(** The linear estimate scales the window's peak by 900 / seconds passed. *)
Lemma linear_eq (current_peak : Q) (s : Z) :
  (0 < s)%Z ->
  current_peak / inject_Z s * inject_Z total_seconds
  == current_peak * (900 / inject_Z s).
Proof.
  intros Hs. rewrite Zlt_Qlt in Hs. change (inject_Z 0) with 0 in Hs.
  rewrite inject_Z_total_seconds. field. lra.
Qed.

(** The continuation estimate adds the share of the current power that the
    rest of the window can still bring. *)
Lemma continuation_eq (current_peak current_power : Q) (s : Z) :
  current_peak_estimate_continuation current_peak current_power s
  == current_peak + current_power * ((900 - inject_Z s) / 900).
Proof.
  unfold current_peak_estimate_continuation.
  unfold Z.sub. rewrite inject_Z_plus, inject_Z_opp, inject_Z_total_seconds.
  field.
Qed.

Lemma scale_ge_one (s : Z) : (0 < s < 900)%Z -> 1 <= 900 / inject_Z s.
Proof.
  intros [Hlo Hhi]. rewrite Zlt_Qlt in Hlo, Hhi.
  change (inject_Z 0) with 0 in Hlo. change (inject_Z 900) with 900 in Hhi.
  apply Qle_shift_div_l; lra.
Qed.

Lemma share_bounds (s : Z) :
  (0 < s < 900)%Z -> 0 <= (900 - inject_Z s) / 900 <= 1.
Proof.
  intros [Hlo Hhi]. rewrite Zlt_Qlt in Hlo, Hhi.
  change (inject_Z 0) with 0 in Hlo. change (inject_Z 900) with 900 in Hhi.
  apply div_between; lra.
Qed.

(** Both models start from the peak already reached. *)
Lemma estimate_floor (current_peak current_power : Q) (s : Z) :
  (0 < s < 900)%Z -> 0 <= current_peak -> 0 <= current_power ->
  exists blended,
    estimate current_peak current_power s = Some blended /\
    current_peak <= blended.
Proof.
  intros Hs Hpeak Hpower.
  rewrite (estimate_eq _ _ _ Hs). eexists. split; [reflexivity|].
  destruct (continuation_chance_bounds s Hs) as [Hc _].
  pose proof (scale_ge_one s Hs) as Hk.
  destruct (share_bounds s Hs) as [Hr _].
  rewrite linear_eq by lia. rewrite continuation_eq.
  set (k := 900 / inject_Z s) in *.
  set (r := (900 - inject_Z s) / 900) in *.
  set (c := continuation_chance s) in *.
  apply Qle_shift_div_l; [lra|].
  assert (0 <= current_power * r) by nra.
  assert (current_peak <= current_peak * k) by nra.
  nra.
Qed.

(** More peak or more power never lowers the estimate. *)
Lemma estimate_mono (peak1 peak2 power1 power2 : Q) (s : Z) :
  (0 < s < 900)%Z -> peak1 <= peak2 -> power1 <= power2 ->
  exists blended1 blended2,
    estimate peak1 power1 s = Some blended1 /\
    estimate peak2 power2 s = Some blended2 /\
    blended1 <= blended2.
Proof.
  intros Hs Hpeak Hpower.
  rewrite !(estimate_eq _ _ _ Hs). do 2 eexists.
  split; [reflexivity|]. split; [reflexivity|].
  destruct (continuation_chance_bounds s Hs) as [Hc _].
  pose proof (scale_ge_one s Hs) as Hk.
  destruct (share_bounds s Hs) as [Hr _].
  rewrite !linear_eq by lia. rewrite !continuation_eq.
  set (k := 900 / inject_Z s) in *.
  set (r := (900 - inject_Z s) / 900) in *.
  set (c := continuation_chance s) in *.
  apply div_le_mono; [lra|].
  assert (power1 * r <= power2 * r) by nra.
  assert (peak1 * k <= peak2 * k) by nra.
  assert ((peak1 + power1 * r) * c <= (peak2 + power2 * r) * c) by nra.
  lra.
Qed.

(** X6: with a window peak and a current power that are not negative, from
    second 1 to second 899 of the window, neither the linear nor the
    continuation estimate is below the window's peak so far, and the blended
    estimate is defined and not below it either. *)
Theorem estimate_at_least_peak (current_peak current_power : Q) (s : Z) :
  (0 < s < 900)%Z -> 0 <= current_peak -> 0 <= current_power ->
  exists linear blended,
    current_peak_estimate_linear current_peak s = Some linear /\
    current_peak <= linear /\
    current_peak <= current_peak_estimate_continuation current_peak current_power s /\
    estimate current_peak current_power s = Some blended /\
    current_peak <= blended.
Proof.
  intros Hs Hpeak Hpower.
  destruct (estimate_floor current_peak current_power s Hs Hpeak Hpower)
    as (blended & Eb & Hb).
  exists (current_peak / inject_Z s * inject_Z total_seconds), blended.
  pose proof (scale_ge_one s Hs) as Hk.
  destruct (share_bounds s Hs) as [Hr _].
  assert (Hx : 0 < inject_Z s)
    by (change 0 with (inject_Z 0); rewrite <- Zlt_Qlt; lia).
  split.
  - unfold current_peak_estimate_linear. now rewrite truediv_defined by lra.
  - split; [rewrite linear_eq by lia; nra|].
    split; [rewrite continuation_eq; nra|].
    split; [exact Eb | exact Hb].
Qed.

Lemma estimate_at_least_peak_witness :
  (0 < 450 < 900)%Z /\ 0 <= 3000 /\ 0 <= 4000 /\
  exists linear blended,
    current_peak_estimate_linear 3000 450 = Some linear /\
    3000 <= linear /\
    3000 <= current_peak_estimate_continuation 3000 4000 450 /\
    estimate 3000 4000 450 = Some blended /\
    3000 <= blended.
Proof.
  split; [lia|]. split; [discriminate|]. split; [discriminate|].
  apply (estimate_at_least_peak 3000 4000 450); [lia | discriminate | discriminate].
Defined.

(** X7: at a fixed second of the window the blended estimate does not drop
    when the window's peak or the current power grows, and so neither does
    the alarm level against a fixed monthly peak above zero. *)
Theorem estimate_monotone
    (peak1 peak2 power1 power2 monthly_peak : Q) (s : Z) :
  (0 < s < 900)%Z -> peak1 <= peak2 -> power1 <= power2 -> 0 < monthly_peak ->
  exists blended1 blended2 level1 level2,
    estimate peak1 power1 s = Some blended1 /\
    estimate peak2 power2 s = Some blended2 /\
    blended1 <= blended2 /\
    alarm blended1 monthly_peak = Some level1 /\
    alarm blended2 monthly_peak = Some level2 /\
    (value level1 <= value level2)%Z.
Proof.
  intros Hs Hpeak Hpower Hmp.
  destruct (estimate_mono peak1 peak2 power1 power2 s Hs Hpeak Hpower)
    as (b1 & b2 & E1 & E2 & Hle).
  exists b1, b2, (alarm_of_ratio (b1 / monthly_peak)),
         (alarm_of_ratio (b2 / monthly_peak)).
  unfold alarm. rewrite !truediv_defined by lra.
  repeat split; auto.
  apply alarm_of_ratio_mono. now apply div_le_mono.
Qed.

Lemma estimate_monotone_witness :
  (0 < 450 < 900)%Z /\ 3000 <= 3000 /\ 1000 <= 4000 /\ 0 < 5000 /\
  exists blended1 blended2 level1 level2,
    estimate 3000 1000 450 = Some blended1 /\
    estimate 3000 4000 450 = Some blended2 /\
    blended1 <= blended2 /\
    alarm blended1 5000 = Some level1 /\
    alarm blended2 5000 = Some level2 /\
    (value level1 <= value level2)%Z.
Proof.
  split; [lia|]. split; [discriminate|]. split; [discriminate|].
  split; [reflexivity|].
  apply (estimate_monotone 3000 3000 1000 4000 5000 450);
    [lia | discriminate | discriminate | reflexivity].
Defined.

(** X8: the level set is never lower than the level the window's peak alone
    would give; once that peak has reached 110 % of the monthly peak every
    sample sets [LEVEL_3], whatever the current power. *)
Theorem level_at_least_peak_level
    (current_peak current_power monthly_peak : Q) (s : Z) :
  (0 < s < 900)%Z -> 0 <= current_peak -> 0 <= current_power ->
  0 < monthly_peak ->
  exists blended level,
    estimate current_peak current_power s = Some blended /\
    alarm blended monthly_peak = Some level /\
    (value (alarm_of_ratio (current_peak / monthly_peak)) <= value level)%Z /\
    (1.1 * monthly_peak <= current_peak -> level = LEVEL_3).
Proof.
  intros Hs Hpeak Hpower Hmp.
  destruct (estimate_floor current_peak current_power s Hs Hpeak Hpower)
    as (b & E & Hle).
  exists b, (alarm_of_ratio (b / monthly_peak)).
  unfold alarm. rewrite truediv_defined by lra.
  repeat split; auto.
  - apply alarm_of_ratio_mono. now apply div_le_mono.
  - intros Hhigh.
    apply (proj2 (proj2 (proj2 (alarm_of_ratio_bands (b / monthly_peak))))).
    apply Qle_shift_div_l; lra.
Qed.

Lemma level_at_least_peak_level_witness :
  (0 < 301 < 900)%Z /\ 0 <= 2800 /\ 0 <= 0 /\ 0 < 2500 /\
  exists blended level,
    estimate 2800 0 301 = Some blended /\
    alarm blended 2500 = Some level /\
    (value (alarm_of_ratio (2800 / 2500)) <= value level)%Z /\
    (1.1 * 2500 <= 2800 -> level = LEVEL_3).
Proof.
  split; [lia|]. split; [discriminate|]. split; [discriminate|].
  split; [reflexivity|].
  apply (level_at_least_peak_level 2800 0 2500 301);
    [lia | discriminate | discriminate | reflexivity].
Defined.

End Readings.

(** ** The program over any number of ticks *)

Section Program.

Local Open Scope Z_scope.

Lemma alarm_of_ratio_loop_level (ratio : Q) : loop_level (alarm_of_ratio ratio) = true.
Proof.
  unfold alarm_of_ratio.
  repeat match goal with |- context [if ?b then _ else _] => destruct b end;
    reflexivity.
Qed.


(** The shape of every pass that returns. *)
Lemma loop_body_returned (now : datetime) (db : Database) (g g' : Globals)
    (effects : list Effect) :
  loop_body now db g = Some (g', effects) ->
  (branch now = Refresh /\
   get_monthly_peak (peak_month db) = Some (monthly_peak g') /\
   buzzer_state g' = buzzer_state g /\
   effects = [QueryMonthlyPeak; Sleep]) \/
  (branch now <> Refresh /\ branch now <> Sample /\
   g' = g /\ effects = [Sleep]) \/
  (branch now = Sample /\
   monthly_peak g' = monthly_peak g /\
   loop_level (buzzer_state g') = true /\
   effects = [QueryCurrentPower; QueryCurrentPeak; SetAlarm (buzzer_state g'); Sleep]).
Proof.
  unfold loop_body. destruct (branch now) eqn:Hb.
  - destruct (get_monthly_peak (peak_month db)) as [peak|]; [|discriminate].
    intros [= <- <-]. left. auto.
  - intros [= <- <-]. right. left. repeat split; congruence.
  - intros [= <- <-]. right. left. repeat split; congruence.
  - intros [= <- <-]. right. left. repeat split; congruence.
  - destruct (get_current_power (power_now db)) as [power|]; [|discriminate].
    destruct (get_current_peak (peak_today db)) as [peak|]; [|discriminate].
    destruct (estimate peak power (seconds_passed now)) as [blended|];
      [|discriminate].
    unfold alarm.
    destruct (truediv blended (monthly_peak g)) as [ratio|]; [|discriminate].
    intros [= <- <-]. right. right. simpl.
    repeat split. apply alarm_of_ratio_loop_level.
Qed.

(** X9: a pass reads the power or the window's peak, or sets an alarm level,
    only between 07:00 and 22:59, from minute 5 of a quarter of an hour on,
    and at second 1 or second 31; the level it sets is never [TEST]. *)
Theorem sampling_ticks (now : datetime) (db : Database) (g g' : Globals)
    (effects : list Effect) :
  valid now ->
  loop_body now db g = Some (g', effects) ->
  In QueryCurrentPower effects \/ In QueryCurrentPeak effects \/
  (exists level, In (SetAlarm level) effects) \/
  buzzer_state g' <> buzzer_state g ->
  7 <= hour now <= 22 /\
  5 <= minute now mod 15 <= 14 /\
  (second now = 1 \/ second now = 31) /\
  In (SetAlarm (buzzer_state g')) effects /\
  buzzer_state g' <> TEST.
Proof.
  intros (Hh & Hm & Hs) Hrun Hdid.
  destruct (loop_body_returned _ _ _ _ _ Hrun)
    as [(_ & _ & Hstate & ->) | [(_ & _ & -> & ->) | (Hb & _ & Hl & ->)]].
  - exfalso. destruct Hdid as [H | [H | [[l H] | H]]];
      simpl in H; intuition discriminate.
  - exfalso. destruct Hdid as [H | [H | [[l H] | H]]];
      simpl in H; intuition discriminate.
  - apply branch_sample_iff in Hb. destruct Hb as (Hidle & Hmin & Hsec).
    unfold idle_period in Hidle.
    pose proof (Z.mod_pos_bound (minute now) 15 ltac:(lia)).
    assert (Hdiv : second now - 1 = 30 * ((second now - 1) / 30))
      by (rewrite (Z.div_mod (second now - 1) 30) at 1; lia).
    repeat split; try lia.
    + simpl. auto.
    + intros Htest. rewrite Htest in Hl. discriminate.
Qed.

Lemma sampling_ticks_witness :
  valid first_sample /\
  loop_body first_sample db_3kW globals_start
  = Some ({| monthly_peak := 2500; buzzer_state := LEVEL_2 |},
          [QueryCurrentPower; QueryCurrentPeak; SetAlarm LEVEL_2; Sleep]) /\
  7 <= hour first_sample <= 22 /\
  5 <= minute first_sample mod 15 <= 14 /\
  (second first_sample = 1 \/ second first_sample = 31) /\
  In (SetAlarm LEVEL_2)
     [QueryCurrentPower; QueryCurrentPeak; SetAlarm LEVEL_2; Sleep] /\
  LEVEL_2 <> TEST.
Proof.
  assert (Hv : valid first_sample) by (unfold valid; simpl; lia).
  assert (Hrun : loop_body first_sample db_3kW globals_start
                 = Some ({| monthly_peak := 2500; buzzer_state := LEVEL_2 |},
                         [QueryCurrentPower; QueryCurrentPeak;
                          SetAlarm LEVEL_2; Sleep]))
    by (vm_compute; reflexivity).
  split; [exact Hv|]. split; [exact Hrun|].
  apply (sampling_ticks first_sample db_3kW globals_start _ _ Hv Hrun).
  left. simpl. auto.
Defined.



Lemma count_set_app (level : Alarm) (a b : list Effect) :
  count_set level (a ++ b) = (count_set level a + count_set level b)%nat.
Proof.
  induction a as [|e a IH]; [reflexivity|].
  simpl. destruct e; try exact IH.
  destruct (Alarm_eqb level0 level); simpl; now rewrite IH.
Qed.

Lemma loop_body_floor (now : datetime) (db : Database) (g g' : Globals)
    (effects : list Effect) :
  (2500 <= monthly_peak g)%Q ->
  loop_body now db g = Some (g', effects) ->
  (2500 <= monthly_peak g')%Q /\ count_set TEST effects = O.
Proof.
  intros Hfloor Hrun.
  destruct (loop_body_returned _ _ _ _ _ Hrun)
    as [(_ & Hpeak & _ & ->) | [(_ & _ & -> & ->) | (_ & Hpeak & Hl & ->)]].
  - split; [|reflexivity]. exact (monthly_peak_floor_returned _ _ Hpeak).
  - split; [exact Hfloor | reflexivity].
  - rewrite Hpeak. split; [exact Hfloor|].
    simpl. unfold loop_level in Hl. apply negb_true_iff in Hl. now rewrite Hl.
Qed.

Lemma main_loop_floor (ticks : list (datetime * Database)) :
  forall (g g' : Globals) (effects : list Effect),
    (2500 <= monthly_peak g)%Q ->
    main_loop ticks g = Some (g', effects) ->
    (2500 <= monthly_peak g')%Q /\ count_set TEST effects = O.
Proof.
  induction ticks as [|[now db] rest IH]; intros g g' effects Hfloor Hrun.
  - injection Hrun as <- <-. split; [exact Hfloor | reflexivity].
  - simpl in Hrun.
    destruct (loop_body now db g) as [[g1 e1]|] eqn:E1; [|discriminate].
    simpl in Hrun.
    destruct (main_loop rest g1) as [[g2 e2]|] eqn:E2; [|discriminate].
    injection Hrun as <- <-. simpl.
    destruct (loop_body_floor _ _ _ _ _ Hfloor E1) as [F1 C1].
    destruct (IH _ _ _ F1 E2) as [F2 C2].
    split; [exact F2|]. rewrite count_set_app. lia.
Qed.

(** X11: whenever the program gets through its ticks, the monthly peak it
    holds is at least 2500 W, and [TEST] was requested exactly once: at start,
    right after [IDLE] and before the first query. *)
Theorem program_invariants (boot : Database) (ticks : list (datetime * Database))
    (g : Globals) (effects : list Effect) :
  program boot ticks = Some (g, effects) ->
  (2500 <= monthly_peak g)%Q /\
  count_set TEST effects = 1%nat /\
  firstn 3 effects = [SetAlarm IDLE; SetAlarm TEST; QueryMonthlyPeak].
Proof.
  unfold program, startup.
  destruct (get_monthly_peak (peak_month boot)) as [peak|] eqn:Epeak;
    [|discriminate].
  simpl.
  destruct (main_loop ticks _) as [[g1 e1]|] eqn:E1; [|discriminate].
  intros [= <- <-].
  destruct (main_loop_floor ticks _ g1 e1
              (monthly_peak_floor_returned _ _ Epeak : (2500 <= monthly_peak
                 {| monthly_peak := peak;
                    buzzer_state := set_alarm TEST (set_alarm IDLE IDLE) |})%Q)
              E1)
    as [F1 C1].
  simpl. rewrite C1. auto.
Qed.



Lemma program_invariants_witness :
  program db_3kW morning
  = Some ({| monthly_peak := 3000; buzzer_state := IDLE |},
          [SetAlarm IDLE; SetAlarm TEST; QueryMonthlyPeak;
           QueryMonthlyPeak; Sleep; Sleep;
           QueryCurrentPower; QueryCurrentPeak; SetAlarm IDLE; Sleep]) /\
  (2500 <= 3000)%Q /\
  count_set TEST
    [SetAlarm IDLE; SetAlarm TEST; QueryMonthlyPeak;
     QueryMonthlyPeak; Sleep; Sleep;
     QueryCurrentPower; QueryCurrentPeak; SetAlarm IDLE; Sleep] = 1%nat /\
  firstn 3
    [SetAlarm IDLE; SetAlarm TEST; QueryMonthlyPeak;
     QueryMonthlyPeak; Sleep; Sleep;
     QueryCurrentPower; QueryCurrentPeak; SetAlarm IDLE; Sleep]
  = [SetAlarm IDLE; SetAlarm TEST; QueryMonthlyPeak].
Proof.
  assert (Hrun : program db_3kW morning
                 = Some ({| monthly_peak := 3000; buzzer_state := IDLE |},
                         [SetAlarm IDLE; SetAlarm TEST; QueryMonthlyPeak;
                          QueryMonthlyPeak; Sleep; Sleep;
                          QueryCurrentPower; QueryCurrentPeak; SetAlarm IDLE; Sleep]))
    by (vm_compute; reflexivity).
  split; [exact Hrun|].
  exact (program_invariants db_3kW morning _ _ Hrun).
Defined.


End Program.

(** ** [sleep()] *)

Section Sleep.

Local Open Scope Q_scope.

(** X13: [sleep()] asks for more than 0 and at most 1 second, and the time
    asked for ends exactly on the next whole second of [time.monotonic()];
    called on a whole second it asks for a full second. *)
Theorem sleep_to_next_second (monotonic : Q) :
  0 < sleep monotonic <= 1 /\
  monotonic + sleep monotonic == inject_Z (Qfloor monotonic + 1) /\
  sleep (inject_Z (Qfloor monotonic)) == 1.
Proof.
  unfold sleep, mod_one.
  pose proof (Qfloor_le monotonic) as Hlo.
  pose proof (Qlt_floor monotonic) as Hhi.
  rewrite inject_Z_plus in *. change (inject_Z 1) with 1 in *.
  rewrite Qfloor_Z.
  repeat split; lra.
Qed.

End Sleep.

(** ** The buzzer thread over whole executions *)

Section Executions.

Lemma run_idle (fuel : nat) : run fuel IDLE = (repeat Tick fuel, IDLE).
Proof.
  induction fuel as [|k IH]; [reflexivity|].
  simpl. now rewrite IH.
Qed.

Lemma count_on_app (a b : list Signal) :
  count_on (a ++ b) = (count_on a + count_on b)%nat.
Proof.
  induction a as [|x a IH]; [reflexivity|].
  destruct x; simpl; now rewrite IH.
Qed.

Lemma count_on_ticks (k : nat) : count_on (repeat Tick k) = O.
Proof. induction k as [|k IH]; [reflexivity | exact IH]. Qed.

(** X14: left alone, [run] sounds a requested level once and then idles:
    after the pass that fires the pattern every later pass only waits for
    the next second, and the state stays [IDLE]. *)
Theorem run_fires_once (fuel : nat) (s : Alarm) :
  s <> IDLE ->
  run (S fuel) s = (fst (run_body s) ++ repeat Tick fuel, IDLE) /\
  count_on (fst (run (S fuel) s)) = count_on (fst (run_body s)) /\
  (0 < count_on (fst (run_body s)))%nat.
Proof.
  intros Hs.
  assert (Hrun : run (S fuel) s = (fst (run_body s) ++ repeat Tick fuel, IDLE)).
  { destruct s; [congruence | | | |]; simpl; now rewrite run_idle. }
  split; [exact Hrun|]. split.
  - rewrite Hrun. simpl fst. rewrite count_on_app, count_on_ticks. lia.
  - destruct s; [congruence | | | |]; simpl; lia.
Qed.

Lemma run_fires_once_witness :
  LEVEL_2 <> IDLE /\
  run 4 LEVEL_2 = (fst (run_body LEVEL_2) ++ repeat Tick 3, IDLE) /\
  count_on (fst (run 4 LEVEL_2)) = count_on (fst (run_body LEVEL_2)) /\
  (0 < count_on (fst (run_body LEVEL_2)))%nat.
Proof.
  split; [discriminate|]. apply (run_fires_once 3 LEVEL_2). discriminate.
Defined.

Lemma sounding_app (on : bool) (a b : list Signal) :
  sounding on (a ++ b) = sounding (sounding on a) b.
Proof. apply fold_left_app. Qed.

Lemma thread_step_sounding (c : Config) :
  sounding (in_pulse (point c)) (snd (thread_step c))
  = in_pulse (point (fst (thread_step c))).
Proof.
  destruct c as [p s]. unfold thread_step. simpl.
  destruct p as [| | |d [|k] ph|]; simpl;
    try destruct (Alarm_eqb s IDLE); try destruct (Alarm_eqb s TEST);
    try destruct ph; try destruct k; try reflexivity;
    destruct s; reflexivity.
Qed.

Lemma exec_sounding (schedule : list Move) :
  forall c : Config,
    sounding (in_pulse (point c)) (snd (exec schedule c))
    = in_pulse (point (fst (exec schedule c))).
Proof.
  induction schedule as [|m rest IH]; intros c; [reflexivity|].
  simpl. destruct (move m c) as [c1 o1] eqn:E1.
  specialize (IH c1). destruct (exec rest c1) as [c2 o2]. simpl in *.
  rewrite sounding_app.
  assert (H1 : sounding (in_pulse (point c)) o1 = in_pulse (point c1)).
  { destruct m as [|level]; simpl in E1.
    - pose proof (thread_step_sounding c) as H. now rewrite E1 in H.
    - injection E1 as <- <-. reflexivity. }
  now rewrite H1.
Qed.

(** X15: in every interleaving of the thread with [set_alarm] calls of the
    main thread, started at the top of [run], the buzzer sounds exactly
    while the thread is between [on()] and [off()] of a pulse: at every other
    point, the top of the loop and its idle wait included, it is off. *)
Theorem buzzer_off_outside_pulse (schedule : list Move) (s : Alarm) :
  let final := fst (exec schedule {| point := AtIdleCheck; state := s |}) in
  let out := snd (exec schedule {| point := AtIdleCheck; state := s |}) in
  sounding false out = in_pulse (point final) /\
  (sounding false out = true <->
   exists d k, point final = InPattern d (S k) HoldOn \/
               point final = InPattern d (S k) SwitchOff).
Proof.
  intros final out.
  assert (Hs : sounding false out = in_pulse (point final))
    by exact (exec_sounding schedule {| point := AtIdleCheck; state := s |}).
  split; [exact Hs|]. rewrite Hs. split.
  - destruct (point final) as [| | |d [|k] [| | |]|]; simpl; try discriminate;
      intros _; exists d, k; auto.
  - intros (d & k & [-> | ->]); reflexivity.
Qed.

Lemma exec_idle (k : nat) :
  exec (repeat Thread k) {| point := AtIdleCheck; state := IDLE |}
  = ({| point := AtIdleCheck; state := IDLE |}, repeat Tick k).
Proof.
  induction k as [|k IH]; [reflexivity|].
  simpl repeat. simpl exec. rewrite IH. reflexivity.
Qed.

(** X16: a level requested while the thread idles, and not overwritten, is
    served in full: after any number of idle waits the thread, in a fixed
    number of steps, gives the signals of one pass of [run] on that level and
    is back at the top of the loop with state [IDLE]. *)
Theorem request_while_idle (k : nat) (level : Alarm) :
  level <> IDLE ->
  exists steps,
    exec (repeat Thread k ++ Main level :: repeat Thread steps)
         {| point := AtIdleCheck; state := IDLE |}
    = ({| point := AtIdleCheck; state := IDLE |},
       repeat Tick k ++ fst (run_body level)).
Proof.
  intros Hl.
  destruct (thread_alone_run_body level Hl) as [steps E].
  exists steps. rewrite exec_app, exec_idle.
  simpl exec. unfold set_alarm at 1. rewrite E.
  simpl. f_equal.
  - now destruct level.
Qed.

Lemma request_while_idle_witness :
  TEST <> IDLE /\
  exists steps,
    exec (repeat Thread 2 ++ Main TEST :: repeat Thread steps)
         {| point := AtIdleCheck; state := IDLE |}
    = ({| point := AtIdleCheck; state := IDLE |},
       repeat Tick 2 ++ fst (run_body TEST)).
Proof.
  split; [discriminate|]. apply (request_while_idle 2 TEST). discriminate.
Defined.

Lemma thread_step_short (c : Config) :
  short_pattern c -> short_pattern (fst (thread_step c)).
Proof.
  destruct c as [p s]. unfold short_pattern, thread_step. simpl.
  destruct p as [| | |d [|k] ph|]; simpl.
  - destruct (Alarm_eqb s IDLE); simpl; auto.
  - destruct s; simpl; intros _; try discriminate.
    split; [lia | now left].
  - intros Hs. split; [|now right]. destruct s; simpl; try lia. congruence.
  - auto.
  - destruct ph; simpl; intros [Hn Hd]; split; auto; lia.
  - auto.
Qed.

Lemma exec_short (schedule : list Move) :
  forall c : Config,
    main_levels schedule = true ->
    short_pattern c -> short_pattern (fst (exec schedule c)).
Proof.
  induction schedule as [|m rest IH]; intros c Hm Hc; [exact Hc|].
  simpl. destruct (move m c) as [c1 o1] eqn:E1.
  assert (H1 : short_pattern c1 /\ main_levels rest = true).
  { destruct m as [|level]; simpl in E1, Hm.
    - pose proof (thread_step_short c Hc) as H. rewrite E1 in H. auto.
    - apply andb_true_iff in Hm. destruct Hm as [Hlevel Hm].
      injection E1 as <- <-. split; [|exact Hm].
      destruct c as [p s]. unfold short_pattern in *. simpl in *.
      destruct p; auto.
      unfold set_alarm. intros Heq. rewrite Heq in Hlevel. discriminate. }
  destruct H1 as [Hc1 Hm1]. specialize (IH c1 Hm1 Hc1).
  now destruct (exec rest c1).
Qed.

(** X17: as long as the main thread requests no [TEST] once the thread is at
    the top of [run], as the main loop never does, no interleaving leads to a
    pattern of more than three pulses, and every pattern holds for 0.1 s or
    for 0.5 s: the 99 behind [TEST] is never taken for a number of pulses,
    not even when the state at the start is [TEST]. *)
Theorem at_most_three_pulses (schedule : list Move) (s : Alarm)
    (d : Q) (left : nat) (ph : Phase) :
  main_levels schedule = true ->
  point (fst (exec schedule {| point := AtIdleCheck; state := s |}))
  = InPattern d left ph ->
  (left <= 3)%nat /\ (d = 0.1%Q \/ d = 0.5%Q).
Proof.
  intros Hm Hp.
  pose proof (exec_short schedule {| point := AtIdleCheck; state := s |} Hm I) as H.
  unfold short_pattern in H. now rewrite Hp in H.
Qed.

Lemma at_most_three_pulses_witness :
  main_levels [Thread; Main LEVEL_3; Thread; Thread; Main LEVEL_2; Thread] = true /\
  point (fst (exec [Thread; Main LEVEL_3; Thread; Thread; Main LEVEL_2; Thread]
                   {| point := AtIdleCheck; state := TEST |}))
  = InPattern 0.5 3 HoldOn /\
  (3 <= 3)%nat /\ (0.5%Q = 0.1%Q \/ 0.5%Q = 0.5%Q).
Proof.
  split; [reflexivity|]. split; [reflexivity|].
  apply (at_most_three_pulses
           [Thread; Main LEVEL_3; Thread; Thread; Main LEVEL_2; Thread]
           TEST 0.5 3 HoldOn); reflexivity.
Defined.

(** Without that condition the bound fails: [TEST] written between the test
    of line 84 and the [range] of line 96 starts 99 pulses of 0.5 s. *)
Remark test_read_at_range :
  exec [Thread; Thread; Main TEST; Thread]
       {| point := AtIdleCheck; state := LEVEL_1 |}
  = ({| point := InPattern 0.5 99 SwitchOn; state := TEST |}, []).
Proof. reflexivity. Qed.

End Executions.

(** ** When the month is read *)

Section RefreshTicks.

Local Open Scope Z_scope.

Lemma on_quarter_minutes (now : datetime) :
  valid now ->
  on_quarter now <-> In (minute now) [0; 15; 30; 45] /\ second now = 1.
Proof.
  intros (_ & Hm & _). unfold on_quarter. simpl. split.
  - intros [Hmod Hs].
    assert (Hdiv : minute now = 15 * (minute now / 15))
      by (rewrite (Z.div_mod (minute now) 15) at 1; lia).
    split; lia.
  - intros [[H | [H | [H | [H | []]]]] Hs]; rewrite <- H; simpl; split;
      try reflexivity; lia.
Qed.

(** X18: a pass that returns has queried the month exactly when the minute is
    0, 15, 30 or 45 and the second is 1, at any hour; then [monthly_peak] is
    what [get_monthly_peak] returned and the buzzer state is untouched; on
    every other pass [monthly_peak] keeps its value. *)
Theorem refresh_ticks (now : datetime) (db : Database) (g g' : Globals)
    (effects : list Effect) :
  valid now ->
  loop_body now db g = Some (g', effects) ->
  (In QueryMonthlyPeak effects <->
   In (minute now) [0; 15; 30; 45] /\ second now = 1) /\
  (In QueryMonthlyPeak effects ->
   get_monthly_peak (peak_month db) = Some (monthly_peak g') /\
   buzzer_state g' = buzzer_state g) /\
  (~ In QueryMonthlyPeak effects -> monthly_peak g' = monthly_peak g).
Proof.
  intros Hv Hrun.
  rewrite <- (on_quarter_minutes now Hv), <- branch_refresh_iff.
  destruct (loop_body_returned _ _ _ _ _ Hrun)
    as [(Hb & Hpeak & Hstate & ->) | [(Hb & _ & -> & ->) | (Hb & Hpeak & _ & ->)]].
  - split; [split; [auto | simpl; auto]|]. split; [auto|].
    intros Hno. exfalso. apply Hno. simpl. auto.
  - split; [split; [simpl; intuition discriminate | contradiction]|].
    split; [simpl; intuition discriminate | reflexivity].
  - split; [split; [simpl; intuition discriminate | congruence]|].
    split; [simpl; intuition discriminate | auto].
Qed.

Lemma refresh_ticks_witness :
  valid night_quarter /\
  loop_body night_quarter db_3kW globals_start
  = Some ({| monthly_peak := 3000; buzzer_state := IDLE |},
          [QueryMonthlyPeak; Sleep]) /\
  (In QueryMonthlyPeak [QueryMonthlyPeak; Sleep] <->
   In (minute night_quarter) [0; 15; 30; 45] /\ second night_quarter = 1) /\
  (In QueryMonthlyPeak [QueryMonthlyPeak; Sleep] ->
   get_monthly_peak (peak_month db_3kW) = Some 3000%Q /\
   IDLE = buzzer_state globals_start) /\
  (~ In QueryMonthlyPeak [QueryMonthlyPeak; Sleep] ->
   3000%Q = monthly_peak globals_start).
Proof.
  assert (Hv : valid night_quarter) by (unfold valid; simpl; lia).
  assert (Hrun : loop_body night_quarter db_3kW globals_start
                 = Some ({| monthly_peak := 3000; buzzer_state := IDLE |},
                         [QueryMonthlyPeak; Sleep])) by reflexivity.
  split; [exact Hv|]. split; [exact Hrun|].
  exact (refresh_ticks night_quarter db_3kW globals_start _ _ Hv Hrun).
Defined.

End RefreshTicks.

(** ** The decision rule on doubles *)

Section Doubles.

Import PrimFloat SpecFloat FloatOps FloatAxioms.
Local Open Scope float_scope.
#[local] Set Warnings "-inexact-float".

(** Comparing the other way round gives the opposite answer. *)
Lemma SFcompare_antisym (x y : spec_float) :
  SFcompare y x = option_map CompOpp (SFcompare x y).
Proof.
  destruct x as [sx|sx| |sx mx ex], y as [sy|sy| |sy my ey]; simpl;
    try destruct sx; try destruct sy; try reflexivity;
    rewrite (Z.compare_antisym ex ey); destruct (ex ?= ey)%Z; simpl;
    try reflexivity;
    change (Pos.compare_cont Eq my mx) with (Pos.compare my mx);
    change (Pos.compare_cont Eq mx my) with (Pos.compare mx my);
    rewrite (Pos.compare_antisym mx my); destruct (mx ?= my)%positive; reflexivity.
Qed.

Lemma SFleb_not_SFltb (x y : spec_float) : SFleb x y = true -> SFltb y x = false.
Proof.
  unfold SFleb, SFltb. rewrite (SFcompare_antisym x y).
  destruct (SFcompare x y) as [[| |]|]; simpl; congruence.
Qed.

Lemma SFltb_not_SFeqb (x y : spec_float) : SFltb x y = true -> SFeqb y x = false.
Proof.
  unfold SFeqb, SFltb. rewrite (SFcompare_antisym x y).
  destruct (SFcompare x y) as [[| |]|]; simpl; congruence.
Qed.

(** What is at or above the larger of two positive doubles is not below the
    smaller. *)
Lemma SFltb_SFleb_above (m1 m2 : positive) (e1 e2 : Z) (r : spec_float) :
  SFltb (S754_finite false m1 e1) (S754_finite false m2 e2) = true ->
  SFleb (S754_finite false m2 e2) r = true ->
  SFltb r (S754_finite false m1 e1) = false.
Proof.
  unfold SFltb, SFleb.
  destruct r as [s|s| |s m e]; simpl; try destruct s; try congruence.
  change (Pos.compare_cont Eq m1 m2) with (Pos.compare m1 m2).
  change (Pos.compare_cont Eq m2 m) with (Pos.compare m2 m).
  change (Pos.compare_cont Eq m m1) with (Pos.compare m m1).
  destruct (Z.compare_spec e1 e2); destruct (Z.compare_spec e2 e);
    destruct (Z.compare_spec e e1); try congruence; try lia;
    destruct (Pos.compare_spec m1 m2); destruct (Pos.compare_spec m2 m);
    destruct (Pos.compare_spec m m1); try congruence; lia.
Qed.

(** [==] with a positive double holds for that double only. *)
Lemma SFeqb_finite (m : positive) (e : Z) (r : spec_float) :
  SFeqb r (S754_finite false m e) = true -> r = S754_finite false m e.
Proof.
  unfold SFeqb.
  destruct r as [s|s| |s m' e']; simpl; try destruct s; try congruence.
  change (Pos.compare_cont Eq m' m) with (Pos.compare m' m).
  destruct (Z.compare_spec e' e); try congruence.
  destruct (Pos.compare_spec m' m); congruence.
Qed.

Lemma leb_not_ltb (a r : float) : (a <=? r) = true -> (r <? a) = false.
Proof. rewrite leb_spec, ltb_spec. apply SFleb_not_SFltb. Qed.

Lemma ltb_not_eqb (a r : float) : (a <? r) = true -> (r =? a) = false.
Proof. rewrite ltb_spec, eqb_spec. apply SFltb_not_SFeqb. Qed.

Lemma above_not_below (a b r : float) (ma mb : positive) (ea eb : Z) :
  Prim2SF a = S754_finite false ma ea ->
  Prim2SF b = S754_finite false mb eb ->
  (a <? b) = true -> (b <=? r) = true -> (r <? a) = false.
Proof.
  rewrite !ltb_spec, leb_spec. intros -> ->. apply SFltb_SFleb_above.
Qed.

Lemma eqb_positive (a r : float) (ma : positive) (ea : Z) :
  Prim2SF a = S754_finite false ma ea -> (r =? a) = true -> r = a.
Proof.
  rewrite eqb_spec. intros Ha Heq. rewrite Ha in Heq.
  apply SFeqb_finite in Heq. apply Prim2SF_inj. congruence.
Qed.

(** C2: for every blended estimate and every monthly peak above zero, in
    the binary64 arithmetic of the program, the level set is the one of the
    band the ratio estimate / monthly peak falls in: [IDLE] below 0.9,
    [LEVEL_1] from 0.9 up to but not 1, [LEVEL_2] from 1 up to but not 1.1,
    [LEVEL_3] from 1.1 on; so a ratio of exactly 0.9 gives [LEVEL_1], exactly
    1 gives [LEVEL_2] and exactly 1.1 gives [LEVEL_3].  The ratio is the
    double the division returns, and 0.9 and 1.1 are the doubles the program
    compares it with. *)
Theorem alarm_level_bands (estimate monthly_peak : float) :
  (0 <? monthly_peak) = true ->
  exists ratio level,
    Binary64.truediv estimate monthly_peak = Some ratio /\
    ratio = estimate / monthly_peak /\
    Binary64.alarm estimate monthly_peak = Some level /\
    ((ratio <? 0.9) = true -> level = IDLE) /\
    ((0.9 <=? ratio) = true -> (ratio <? 1) = true -> level = LEVEL_1) /\
    ((1 <=? ratio) = true -> (ratio <? 1.1) = true -> level = LEVEL_2) /\
    ((1.1 <=? ratio) = true -> level = LEVEL_3) /\
    ((ratio =? 0.9) = true -> level = LEVEL_1) /\
    ((ratio =? 1) = true -> level = LEVEL_2) /\
    ((ratio =? 1.1) = true -> level = LEVEL_3).
Proof.
  intros Hpos.
  assert (Hnz : (monthly_peak =? 0) = false) by now apply ltb_not_eqb.
  exists (estimate / monthly_peak),
         (Binary64.alarm_of_ratio (estimate / monthly_peak)).
  unfold Binary64.alarm, Binary64.truediv. rewrite Hnz.
  split; [reflexivity|]. split; [reflexivity|]. split; [reflexivity|].
  set (ratio := estimate / monthly_peak).
  assert (P09 : Prim2SF 0.9 = S754_finite false 8106479329266893 (-53))
    by (vm_compute; reflexivity).
  assert (P10 : Prim2SF 1 = S754_finite false 4503599627370496 (-52))
    by (vm_compute; reflexivity).
  assert (P11 : Prim2SF 1.1 = S754_finite false 4953959590107546 (-52))
    by (vm_compute; reflexivity).
  assert (Bands :
    ((ratio <? 0.9) = true -> Binary64.alarm_of_ratio ratio = IDLE) /\
    ((0.9 <=? ratio) = true -> (ratio <? 1) = true ->
     Binary64.alarm_of_ratio ratio = LEVEL_1) /\
    ((1 <=? ratio) = true -> (ratio <? 1.1) = true ->
     Binary64.alarm_of_ratio ratio = LEVEL_2) /\
    ((1.1 <=? ratio) = true -> Binary64.alarm_of_ratio ratio = LEVEL_3)).
  { unfold Binary64.alarm_of_ratio.
    change (Binary64.of_int 1) with 1.
    repeat split.
    - intros ->. reflexivity.
    - intros H09 H1. now rewrite (leb_not_ltb _ _ H09), H1.
    - intros H1 H11.
      rewrite (above_not_below 0.9 1 ratio _ _ _ _ P09 P10 eq_refl H1).
      now rewrite (leb_not_ltb _ _ H1), H11.
    - intros H11.
      rewrite (above_not_below 0.9 1.1 ratio _ _ _ _ P09 P11 eq_refl H11).
      rewrite (above_not_below 1 1.1 ratio _ _ _ _ P10 P11 eq_refl H11).
      now rewrite (leb_not_ltb _ _ H11). }
  destruct Bands as (B0 & B1 & B2 & B3).
  repeat split; auto.
  - intros Heq. rewrite (eqb_positive 0.9 ratio _ _ P09 Heq). reflexivity.
  - intros Heq. rewrite (eqb_positive 1 ratio _ _ P10 Heq). reflexivity.
  - intros Heq. rewrite (eqb_positive 1.1 ratio _ _ P11 Heq). reflexivity.
Qed.

Lemma alarm_level_bands_witness :
  (0 <? 2500) = true /\
  exists ratio level,
    Binary64.truediv 2750 2500 = Some ratio /\
    ratio = 2750 / 2500 /\
    Binary64.alarm 2750 2500 = Some level /\
    ((ratio <? 0.9) = true -> level = IDLE) /\
    ((0.9 <=? ratio) = true -> (ratio <? 1) = true -> level = LEVEL_1) /\
    ((1 <=? ratio) = true -> (ratio <? 1.1) = true -> level = LEVEL_2) /\
    ((1.1 <=? ratio) = true -> level = LEVEL_3) /\
    ((ratio =? 0.9) = true -> level = LEVEL_1) /\
    ((ratio =? 1) = true -> level = LEVEL_2) /\
    ((ratio =? 1.1) = true -> level = LEVEL_3).
Proof.
  split; [reflexivity | apply (alarm_level_bands 2750 2500); reflexivity].
Defined.

(** The division rounds before the comparison: 2460.6 (the double next to
    it) against 2734 gives the double 0.9 and so [LEVEL_1], although the
    quotient of the two numbers is below nine tenths. *)
Lemma rounded_ratio :
  0x1.3393333333333p+11 / 2734 = 0.9 /\
  Binary64.alarm 0x1.3393333333333p+11 2734 = Some LEVEL_1.
Proof. split; vm_compute; reflexivity. Qed.

(** C9 as it is written fails on doubles: at 14:06:31, second 391 of the
    window, a window peak of 1527.34375 W and a current power of 3515.625 W
    give a linear and a continuation estimate of 3515.625 W each, and a weight
    within [0.25, 1]; the blended estimate is the double just below
    3515.625, smaller than both. *)
Lemma estimate_between_counterexample :
  branch {| hour := 14; minute := 6; second := 31 |} = Sample /\
  seconds_passed {| hour := 14; minute := 6; second := 31 |} = 391%Z /\
  Binary64.current_peak_estimate_linear 1527.34375 391 = Some 3515.625 /\
  Binary64.current_peak_estimate_continuation 1527.34375 3515.625 391 = 3515.625 /\
  (0.25 <=? Binary64.continuation_chance 391) = true /\
  (Binary64.continuation_chance 391 <=? 1) = true /\
  exists blended,
    Binary64.current_peak_estimate 3515.625 3515.625
      (Binary64.continuation_chance 391) = Some blended /\
    Binary64.estimate 1527.34375 3515.625 391 = Some blended /\
    (blended <? 3515.625) = true /\
    next_up blended = 3515.625 /\
    Binary64.alarm blended 3515.625 = Some LEVEL_1.
Proof.
  split; [reflexivity|]. split; [reflexivity|].
  split; [vm_compute; reflexivity|]. split; [vm_compute; reflexivity|].
  split; [vm_compute; reflexivity|]. split; [vm_compute; reflexivity|].
  exists (next_down 3515.625).
  repeat split; vm_compute; reflexivity.
Qed.

End Doubles.
